(** * fn-pylint-action: the pylint reporter of [src/index.js]

    A shallow embedding of the action's script: the JavaScript values it
    handles, the effects it performs on the host (the subprocess call, the
    log, the run status and the annotations) as an event trace with
    exceptions, and the three functions [reportResults],
    [annotationProperties] and [annotationMessage] together with the entry
    point [run]. *)

From Stdlib Require Import List String Ascii ZArith Lia Bool DecimalString.
From Stdlib Require Import Permutation.
Import ListNotations.
Open Scope string_scope.
Set Warnings "-register-all".

(** ** Values *)

(** What [JSON.parse] builds, plus [undefined], which reading a missing
    property yields. A number is one written as an integer (the [line] and
    [column] of the diagnostic schema): [JNum n] is the Number [JSON.parse]
    reads from the literal [n], the double nearest to it; a number written
    with a fraction or an exponent is outside the embedding. An object
    keeps its properties as the decoder lists them, each name once. *)
Inductive jsval : Type :=
| JUndefined
| JNull
| JBool (b : bool)
| JNum (n : Z)
| JStr (s : string)
| JArr (items : list jsval)
| JObj (fields : list (string * jsval)).

(** An element of the array returned by [shell-quote]'s [parse]: a plain
    word, or an object standing for an operator, a glob or a comment. *)
Inductive ParseEntry : Type :=
| Word (s : string)
| Op (op : string)
| Glob (pattern : string)
| Comment (text : string).

(** The exceptions that reach the script. *)
Inductive exn : Type :=
| TypeError
| SyntaxError
| ShellParseError
| ProcessError (message : string).

Inductive outcome (A : Type) : Type :=
| Ok (a : A)
| Throw (e : exn).
Arguments Ok {A} a.
Arguments Throw {A} e.

Definition obind {A B} (o : outcome A) (k : A -> outcome B) : outcome B :=
  match o with
  | Ok a => k a
  | Throw e => Throw e
  end.

Declare Scope outcome_scope.
Delimit Scope outcome_scope with outcome.
Notation "'let?' x ':=' c 'in' k" := (obind c (fun x => k))
  (at level 10, x name, c at level 100, k at level 200) : outcome_scope.

(** The line feed of the template literals. *)
Definition LF : string := String (ascii_of_nat 10) EmptyString.

(** The decimal digits of an integer, with its sign. *)
Definition decimal (n : Z) : string :=
  NilZero.string_of_int (Z.to_int n).

(** [Number.MAX_SAFE_INTEGER]: up to it every integer is a Number of its
    own and is rendered digit for digit. *)
Definition MAX_SAFE_INTEGER : Z := 9007199254740991.

(** [Number.isSafeInteger]. *)
Definition safe_integer (n : Z) : bool :=
  (Z.abs n <=? MAX_SAFE_INTEGER)%Z.

(** The double nearest to a natural number: 53 significant bits, a tie
    going to the even one. *)
Definition nearest_double (a : Z) : Z :=
  if (a <? 2 ^ 53)%Z then a
  else
    let shift := (Z.log2 a - 52)%Z in
    let q := Z.shiftr a shift in
    let r := (a - Z.shiftl q shift)%Z in
    let half := Z.shiftl 1 (shift - 1) in
    let q' :=
      if (r <? half)%Z then q
      else if (half <? r)%Z then (q + 1)%Z
      else if Z.even q then q else (q + 1)%Z in
    Z.shiftl q' shift.

(** The integer with the fewest significant digits that still reads back
    as the double [x]; of two with as many digits the nearer to [x], and
    of two as near the one with an even last digit. [k] counts the
    significant digits tried, from 1 up to the [digits] of [x]. *)
Fixpoint shortest (fuel : nat) (k digits x : Z) : Z :=
  match fuel with
  | O => x
  | S fuel' =>
      let p := (10 ^ (digits - k))%Z in
      let lo := (x / p * p)%Z in
      let hi := (lo + p)%Z in
      let lo_ok := (nearest_double lo =? x)%Z in
      let hi_ok := (nearest_double hi =? x)%Z in
      if lo_ok && hi_ok then
        if (x - lo <? hi - x)%Z then lo
        else if (hi - x <? x - lo)%Z then hi
        else if Z.even (lo / p) then lo else hi
      else if lo_ok then lo
      else if hi_ok then hi
      else shortest fuel' (k + 1)%Z digits x
  end.

Fixpoint strip_zeros (s : string) : string :=
  match s with
  | EmptyString => EmptyString
  | String c rest =>
      match strip_zeros rest with
      | EmptyString =>
          if Ascii.eqb c "0"%char then EmptyString else String c EmptyString
      | rest' => String c rest'
      end
  end.

(** The digits of a positive integer as [Number.prototype.toString] lays
    them out: all of them up to 21 digits, beyond that the significant
    ones with a point after the first and the exponent. *)
Definition exponential (c : Z) : string :=
  let text := decimal c in
  let n := Z.of_nat (String.length text) in
  if (n <=? 21)%Z then text
  else
    match strip_zeros text with
    | EmptyString => text
    | String d EmptyString => String d ("e+" ++ decimal (n - 1))
    | String d more => String d ("." ++ more ++ "e+" ++ decimal (n - 1))
    end.

(** [Number.prototype.toString] on the Number read from the integer
    literal [n]: the digits of [n] while it is a safe integer; beyond, the
    shortest digits that read back as its double, and [Infinity] past the
    largest double. *)
Definition Number_toString (n : Z) : string :=
  if safe_integer n then decimal n
  else
    let x := nearest_double (Z.abs n) in
    (if (n <? 0)%Z then "-" else "") ++
    (if (2 ^ 1024 <=? x)%Z then "Infinity"
     else
       let digits := String.length (decimal x) in
       exponential (shortest digits 1 (Z.of_nat digits) x)).

Fixpoint has_own (k : string) (fields : list (string * jsval)) : bool :=
  match fields with
  | [] => false
  | (k', _) :: rest => if String.eqb k' k then true else has_own k rest
  end.

Fixpoint own (k : string) (fields : list (string * jsval)) : jsval :=
  match fields with
  | [] => JUndefined
  | (k', v) :: rest => if String.eqb k' k then v else own k rest
  end.

(** [v.k] and [v['k']] for the property names the script reads ([type],
    [message], [message-id], [symbol], [path], [line], [column], [obj],
    [module]): reading from [null] or [undefined] throws; no prototype
    defines one of these names, so anything but an object with the property
    of its own gives [undefined]. *)
Definition getProp (v : jsval) (k : string) : outcome jsval :=
  match v with
  | JUndefined | JNull => Throw TypeError
  | JObj fields => Ok (own k fields)
  | _ => Ok JUndefined
  end.

(** [ToString], as a template literal applies it and as the language
    defines it. An array joins its elements with a comma, [null] and
    [undefined] elements as the empty string; an object goes through
    [Object.prototype.toString] unless a property of its own named
    [toString] hides it, and a decoded property is never callable: then
    the conversion throws a [TypeError]. The language puts no bound on the
    nesting of arrays; an engine that runs out of stack on a deep nesting
    ends the conversion with a [RangeError] of its own, which has no
    counterpart here: no theorem below concludes which exception a
    conversion ends with. *)
Fixpoint ToString (v : jsval) : outcome string :=
  match v with
  | JUndefined => Ok "undefined"
  | JNull => Ok "null"
  | JBool b => Ok (if b then "true" else "false")
  | JNum n => Ok (Number_toString n)
  | JStr s => Ok s
  | JArr items =>
      (fix join (l : list jsval) : outcome string :=
         match l with
         | [] => Ok ""
         | x :: rest =>
             obind
               (match x with
                | JUndefined | JNull => Ok ""
                | _ => ToString x
                end)
               (fun sx =>
                  match rest with
                  | [] => Ok sx
                  | _ :: _ => obind (join rest) (fun sr => Ok (sx ++ "," ++ sr))
                  end)
         end) items
  | JObj fields =>
      if has_own "toString" fields then Throw TypeError
      else Ok "[object Object]"
  end.

(** [ToBoolean], as [||] applies it. *)
Definition ToBoolean (v : jsval) : bool :=
  match v with
  | JUndefined | JNull => false
  | JBool b => b
  | JNum n => negb (Z.eqb n 0)
  | JStr s => negb (String.eqb s "")
  | JArr _ | JObj _ => true
  end.

(** [v === s] for a string literal [s]. *)
Definition strict_eq_string (v : jsval) (s : string) : bool :=
  match v with
  | JStr t => String.eqb t s
  | _ => false
  end.

Definition ParseEntry_toString (e : ParseEntry) : string :=
  match e with
  | Word s => s
  | Op _ | Glob _ | Comment _ => "[object Object]"
  end.

(** [Array.prototype.join]. *)
Definition join (sep : string) (l : list string) : string :=
  String.concat sep l.

(** [s.indexOf(pat)]: the first position of [pat] in [s], [-1] when there
    is none. *)
Definition indexOf (s pat : string) : Z :=
  match String.index 0 pat s with
  | Some i => Z.of_nat i
  | None => (-1)%Z
  end.

(** ** Effects *)

Record AnnotationProperties : Type := {
  title : string;
  file : jsval;
  startLine : jsval;
  endLine : jsval;
  startColumn : jsval;
  endColumn : jsval
}.

(** The calls the script makes on its collaborators, in the order it makes
    them. [core_setFailed None] is the call without a message. *)
Inductive event : Type :=
| exec_exec (tool : string) (args : list ParseEntry)
| console_error (e : exn)
| core_setFailed (message : option string)
| core_error (message : string) (properties : AnnotationProperties)
| core_warning (message : string) (properties : AnnotationProperties)
| core_notice (message : string) (properties : AnnotationProperties).

(** A computation: the events it performed, then its value or the
    exception that stopped it. *)
Definition M (A : Type) : Type := (list event * outcome A)%type.

Definition ret {A} (a : A) : M A := ([], Ok a).
Definition throw {A} (e : exn) : M A := ([], Throw e).
Definition emit (e : event) : M unit := ([e], Ok tt).
Definition lift {A} (o : outcome A) : M A := ([], o).

Definition bind {A B} (m : M A) (k : A -> M B) : M B :=
  match snd m with
  | Ok a => ((fst m ++ fst (k a))%list, snd (k a))
  | Throw e => (fst m, Throw e)
  end.

(** [try { body } catch (e) { handler e }]. *)
Definition try_catch {A} (body : M A) (handler : exn -> M A) : M A :=
  match snd body with
  | Ok a => body
  | Throw e => ((fst body ++ fst (handler e))%list, snd (handler e))
  end.

Declare Scope js_scope.
Delimit Scope js_scope with js.
Notation "x <- c ;; k" := (bind c (fun x => k))
  (at level 100, c at next level, right associativity) : js_scope.
Notation "c ;; k" := (bind c (fun _ => k))
  (at level 100, right associativity) : js_scope.
Open Scope js_scope.

Definition trace {A} (m : M A) : list event := fst m.
Definition result {A} (m : M A) : outcome A := snd m.

(** ** The script *)

(** [items.filter(callback)]; a value that is not an array has no callable
    [filter]. *)
Fixpoint filter_items (callback : jsval -> outcome bool) (items : list jsval)
  : outcome (list jsval) :=
  match items with
  | [] => Ok []
  | x :: rest =>
      obind (callback x) (fun keep =>
      obind (filter_items callback rest) (fun kept =>
      Ok (if keep then x :: kept else kept)))
  end.

Definition Array_filter (callback : jsval -> outcome bool) (v : jsval)
  : outcome (list jsval) :=
  match v with
  | JArr items => filter_items callback items
  | _ => Throw TypeError
  end.

(** [items.forEach(callback)]. *)
Fixpoint forEach (callback : jsval -> M unit) (items : list jsval) : M unit :=
  match items with
  | [] => ret tt
  | x :: rest => callback x ;; forEach callback rest
  end.

(** [message => message.type === severity] *)
Definition hasType (severity : string) (message : jsval) : outcome bool :=
  obind (getProp message "type") (fun ty => Ok (strict_eq_string ty severity)).

Definition annotationProperties (message : jsval) : outcome AnnotationProperties :=
  (let? ty := obind (getProp message "type") ToString in
   let? id := obind (getProp message "message-id") ToString in
   let? symbol := obind (getProp message "symbol") ToString in
   let? path := getProp message "path" in
   let? line := getProp message "line" in
   let? column := getProp message "column" in
   Ok {| title := "Linter " ++ ty ++ " " ++ id ++ " (" ++ symbol ++ ")";
         file := path;
         startLine := line;
         endLine := line;
         startColumn := column;
         endColumn := column |})%outcome.

Definition annotationMessage (message : jsval) : outcome string :=
  (let? text := obind (getProp message "message") ToString in
   let? obj := getProp message "obj" in
   let? context :=
     (if ToBoolean obj then ToString obj
      else obind (getProp message "module") ToString) in
   let? path := obind (getProp message "path") ToString in
   let? line := obind (getProp message "line") ToString in
   let? column := obind (getProp message "column") ToString in
   Ok ((text ++ LF ++ LF) ++
       (context ++ " (" ++ path ++ ":" ++ line ++ ":" ++ column ++ ")")))%outcome.

(** [message => core.error(annotationMessage(message),
    annotationProperties(message))], and the same for the other two
    channels. *)
Definition annotate (channel : string -> AnnotationProperties -> event)
    (message : jsval) : M unit :=
  text <- lift (annotationMessage message) ;;
  properties <- lift (annotationProperties message) ;;
  emit (channel text properties).

(** The five filters of [reportResults]. *)
Record buckets : Type := {
  pylintErrors : list jsval;
  pylintWarnings : list jsval;
  pylintConvention : list jsval;
  pylintRefactor : list jsval;
  pylintInfo : list jsval
}.

Definition classify (pylintMessages : jsval) : outcome buckets :=
  (let? errors := Array_filter (hasType "error") pylintMessages in
   let? warnings := Array_filter (hasType "warning") pylintMessages in
   let? convention := Array_filter (hasType "convention") pylintMessages in
   let? refactor := Array_filter (hasType "refactor") pylintMessages in
   let? info := Array_filter (hasType "info") pylintMessages in
   Ok {| pylintErrors := errors;
         pylintWarnings := warnings;
         pylintConvention := convention;
         pylintRefactor := refactor;
         pylintInfo := info |})%outcome.

Definition summaryTitle (pylintArgs : list ParseEntry) : string :=
  "Pylint linter issues detected: (options '" ++
  join "," (map ParseEntry_toString pylintArgs) ++ "')".

(** [messages.length && summaryLines.push(`${messages.length} ${severity}`)],
    the lines so far passed in and out. *)
Definition appendToSummaryIfNonEmpty (summaryLines : list string)
    (messages : list jsval) (severity : string) : list string :=
  match List.length messages with
  | O => summaryLines
  | S _ =>
      let line :=
        Number_toString (Z.of_nat (List.length messages)) ++ " " ++ severity in
      (summaryLines ++ [line])%list
  end.

Definition summary (b : buckets) (pylintArgs : list ParseEntry) : string :=
  let summaryLines := [summaryTitle pylintArgs] in
  let summaryLines := appendToSummaryIfNonEmpty summaryLines (pylintErrors b) "error" in
  let summaryLines := appendToSummaryIfNonEmpty summaryLines (pylintWarnings b) "warning" in
  let summaryLines := appendToSummaryIfNonEmpty summaryLines (pylintConvention b) "convention" in
  let summaryLines := appendToSummaryIfNonEmpty summaryLines (pylintRefactor b) "refactor" in
  let summaryLines := appendToSummaryIfNonEmpty summaryLines (pylintInfo b) "info" in
  join (LF ++ LF) summaryLines.

Definition reportResults (pylintMessages : jsval) (pylintArgs : list ParseEntry)
  : M unit :=
  b <- lift (classify pylintMessages) ;;
  emit (core_setFailed (Some (summary b pylintArgs))) ;;
  forEach (annotate core_error) (pylintErrors b) ;;
  forEach (annotate core_warning)
    (pylintWarnings b ++ pylintRefactor b ++ pylintConvention b)%list ;;
  forEach (annotate core_notice) (pylintInfo b).

(** What [exec.exec] leaves behind: the text the [stdout] listener
    gathered, and the error its promise was rejected with, if it was. *)
Record ExecResult : Type := {
  pylintOutput : string;
  rejection : option string
}.

(** The message of the error [exec.exec] rejects with when the process
    ends with a non-zero code (the format of [@actions/exec]). *)
Definition exitCodeMessage (toolPath : string) (exitCode : Z) : string :=
  "The process '" ++ toolPath ++ "' failed with exit code " ++
  Number_toString exitCode.

Section Run.

(** The collaborators: [core.getInput], [shell-quote]'s [parse] (which may
    throw), the subprocess behind [exec.exec], and [JSON.parse] (which
    throws a [SyntaxError] on text that is not JSON). *)
Variable getInput : string -> string.
Variable shellParse : string -> outcome (list ParseEntry).
Variable exec : string -> list ParseEntry -> ExecResult.
Variable JSON_parse : string -> outcome jsval.

(** The handler given to [.catch]. *)
Definition onRejected (pylintOutput : string) (pylintArgs : list ParseEntry)
    (message : string) : M unit :=
  let pylintError := ProcessError message in
  if (0 <? indexOf message "exit code 32")%Z then
    emit (console_error pylintError) ;;
    emit (core_setFailed None)
  else
    try_catch
      (pylintMessages <- lift (JSON_parse pylintOutput) ;;
       reportResults pylintMessages pylintArgs)
      (fun reportingError =>
         emit (console_error pylintError) ;;
         emit (console_error reportingError)).

Definition run : M unit :=
  parsed <- lift (shellParse (getInput "pylint-args")) ;;
  let pylintArgs := (parsed ++ [Word "--output-format=json"])%list in
  emit (exec_exec "pylint" pylintArgs) ;;
  let r := exec "pylint" pylintArgs in
  match rejection r with
  | None => ret tt
  | Some message => onRejected (pylintOutput r) pylintArgs message
  end.

(** The input splits into [parsed], and the subprocess, given these tokens
    and the output-format token, writes [out] and ends in a rejection with
    [message]. *)
Definition rejected_with (parsed : list ParseEntry) (out message : string)
  : Prop :=
  shellParse (getInput "pylint-args") = Ok parsed /\
  exec "pylint" (parsed ++ [Word "--output-format=json"])%list =
  {| pylintOutput := out; rejection := Some message |}.

End Run.

(** ** The vocabulary of the properties *)

Definition nullish (v : jsval) : bool :=
  match v with
  | JUndefined | JNull => true
  | _ => false
  end.

(** A diagnostic list: a decoded array none of whose elements is [null]. *)
Definition diagnostics (l : list jsval) : Prop :=
  forallb (fun m => negb (nullish m)) l = true.

(** The diagnostic's [type] is the string [severity]. *)
Definition typeIs (severity : string) (m : jsval) : bool :=
  match m with
  | JObj fields => strict_eq_string (own "type" fields) severity
  | _ => false
  end.

Definition severities : list string :=
  ["error"; "warning"; "convention"; "refactor"; "info"].

Definition recognized (m : jsval) : bool :=
  existsb (fun severity => typeIs severity m) severities.

Definition is_annotation (e : event) : bool :=
  match e with
  | core_error _ _ | core_warning _ _ | core_notice _ _ => true
  | _ => false
  end.

Definition is_setFailed (e : event) : bool :=
  match e with
  | core_setFailed _ => true
  | _ => false
  end.

Definition is_exec (e : event) : bool :=
  match e with
  | exec_exec _ _ => true
  | _ => false
  end.

(** The annotation a callback of [reportResults] emits for a diagnostic,
    or the exception that stops it before it emits one. *)
Definition annotation (channel : string -> AnnotationProperties -> event)
    (m : jsval) : outcome event :=
  (let? text := annotationMessage m in
   let? properties := annotationProperties m in
   Ok (channel text properties))%outcome.

(** The emission order as the specification words it: the errors, then the
    warnings, refactors and conventions as ONE group in input order, then
    the infos. *)
Definition emission_order_merged (l : list jsval) : list (outcome event) :=
  (map (annotation core_error) (filter (typeIs "error") l) ++
   map (annotation core_warning)
     (filter (fun m => typeIs "warning" m || typeIs "refactor" m
                       || typeIs "convention" m) l) ++
   map (annotation core_notice) (filter (typeIs "info") l))%list.

(** The emission order of the three [forEach] loops. *)
Definition emission_order (l : list jsval) : list (outcome event) :=
  (map (annotation core_error) (filter (typeIs "error") l) ++
   map (annotation core_warning)
     (filter (typeIs "warning") l ++ filter (typeIs "refactor") l ++
      filter (typeIs "convention") l) ++
   map (annotation core_notice) (filter (typeIs "info") l))%list.

(** The entries of the summary as the specification words them: for each
    severity, in the fixed order, [<count> <severity-name>] when the count
    is not zero. *)
Definition summary_entries (l : list jsval) : list string :=
  flat_map
    (fun severity =>
       let n := List.length (filter (typeIs severity) l) in
       if Nat.eqb n 0 then []
       else [Number_toString (Z.of_nat n) ++ " " ++ severity])
    severities.

(** The bucket of a severity name. *)
Definition bucket (b : buckets) (severity : string) : list jsval :=
  if String.eqb severity "error" then pylintErrors b
  else if String.eqb severity "warning" then pylintWarnings b
  else if String.eqb severity "convention" then pylintConvention b
  else if String.eqb severity "refactor" then pylintRefactor b
  else if String.eqb severity "info" then pylintInfo b
  else [].

Definition b2n (b : bool) : nat := if b then 1 else 0.

Definition annotations_only (t : list event) : Prop :=
  Forall (fun e => is_annotation e = true) t.

Definition is_channel (channel : string -> AnnotationProperties -> event)
  : Prop :=
  forall text properties, is_annotation (channel text properties) = true.

(** The three [forEach] loops that end [reportResults]. *)
Definition loops (b : buckets) : M unit :=
  forEach (annotate core_error) (pylintErrors b) ;;
  forEach (annotate core_warning)
    (pylintWarnings b ++ pylintRefactor b ++ pylintConvention b)%list ;;
  forEach (annotate core_notice) (pylintInfo b).

(** ** Sample runs *)

(** The diagnostic of the specification's worked example, and one of each
    other severity as pylint writes them. *)
Definition sample_error : jsval :=
  JObj [("type", JStr "error"); ("message", JStr "bad");
        ("message-id", JStr "E1"); ("symbol", JStr "bad-thing");
        ("path", JStr "a.py"); ("line", JNum 3); ("column", JNum 1);
        ("obj", JStr "foo")].

Definition sample_warning : jsval :=
  JObj [("type", JStr "warning"); ("module", JStr "a"); ("obj", JStr "");
        ("line", JNum 1); ("column", JNum 0); ("path", JStr "a.py");
        ("symbol", JStr "unused-import");
        ("message", JStr "Unused import os"); ("message-id", JStr "W0611")].

Definition sample_refactor : jsval :=
  JObj [("type", JStr "refactor"); ("module", JStr "a");
        ("obj", JStr "Shape.area"); ("line", JNum 12); ("column", JNum 4);
        ("path", JStr "a.py"); ("symbol", JStr "no-self-use");
        ("message", JStr "Method could be a function");
        ("message-id", JStr "R0201")].

Definition sample_convention : jsval :=
  JObj [("type", JStr "convention"); ("module", JStr "a"); ("obj", JNull);
        ("line", JNum 1); ("column", JNum 0); ("path", JStr "a.py");
        ("symbol", JStr "missing-module-docstring");
        ("message", JStr "Missing module docstring");
        ("message-id", JStr "C0114")].

Definition sample_info : jsval :=
  JObj [("type", JStr "info"); ("module", JStr "a");
        ("line", JNum 7); ("column", JNum 0); ("path", JStr "a.py");
        ("symbol", JStr "locally-disabled");
        ("message", JStr "Locally disabling unused-import (W0611)");
        ("message-id", JStr "I0011")].

(** A diagnostic of a [type] outside the five. *)
Definition sample_fatal : jsval :=
  JObj [("type", JStr "fatal"); ("module", JStr "b"); ("obj", JStr "");
        ("line", JNum 1); ("column", JNum 0); ("path", JStr "b.py");
        ("symbol", JStr "parse-error"); ("message", JStr "Cannot parse");
        ("message-id", JStr "F0010")].

Definition sample_list : list jsval :=
  [sample_convention; sample_info; sample_refactor; sample_error;
   sample_warning; sample_fatal; sample_warning].

(** The double quote. *)
Definition DQ : string := String (ascii_of_nat 34) EmptyString.

(** The JSON text of a value whose strings need no escape. *)
Fixpoint json_text (v : jsval) : string :=
  match v with
  | JUndefined | JNull => "null"
  | JBool b => if b then "true" else "false"
  | JNum n => Number_toString n
  | JStr s => DQ ++ s ++ DQ
  | JArr items =>
      "[" ++
      (fix elements (l : list jsval) : string :=
         match l with
         | [] => ""
         | x :: rest =>
             json_text x ++
             match rest with
             | [] => ""
             | _ :: _ => "," ++ elements rest
             end
         end) items ++ "]"
  | JObj fields =>
      "{" ++
      (fix members (l : list (string * jsval)) : string :=
         match l with
         | [] => ""
         | (k, x) :: rest =>
             DQ ++ k ++ DQ ++ ":" ++ json_text x ++
             match rest with
             | [] => ""
             | _ :: _ => "," ++ members rest
             end
         end) fields ++ "}"
  end.

(** A decoder that knows the texts of the values in [known] and rejects
    every other text. *)
Definition sample_JSON_parse (known : list jsval) (text : string)
  : outcome jsval :=
  match find (fun v => String.eqb (json_text v) text) known with
  | Some v => Ok v
  | None => Throw SyntaxError
  end.

(** The words of a string of plain words separated by single blanks. *)
Fixpoint words (current s : string) : list string :=
  match s with
  | EmptyString =>
      match current with
      | EmptyString => []
      | _ => [current]
      end
  | String c rest =>
      if Ascii.eqb c " "%char then
        match current with
        | EmptyString => words EmptyString rest
        | _ => current :: words EmptyString rest
        end
      else words (current ++ String c EmptyString) rest
  end.

(** A tokenizer for inputs made of plain words: no quotes, operators,
    globs or comments. *)
Definition sample_shellParse (s : string) : outcome (list ParseEntry) :=
  Ok (map Word (words EmptyString s)).

Definition sample_getInput (pylintArgs : string) (name : string) : string :=
  if String.eqb name "pylint-args" then pylintArgs else "".

(** A subprocess that writes [out] and ends with the given rejection. *)
Definition sample_exec (out : string) (rejected : option string)
    (tool : string) (args : list ParseEntry) : ExecResult :=
  {| pylintOutput := out; rejection := rejected |}.

(** The run of the samples: the input [src], pylint at [/usr/bin/pylint]
    ending with code 31 after writing the sample list. *)
Definition sample_output : string := json_text (JArr sample_list).

Definition sample_message : string := exitCodeMessage "/usr/bin/pylint" 31.

(** ** The token split the specification speaks of *)






(** ** A tokenizer with globs *)






(** ** Further vocabulary *)

Definition is_log (e : event) : bool :=
  match e with
  | console_error _ => true
  | _ => false
  end.

(** A value that is neither an array nor an object. *)
Definition scalar (v : jsval) : bool :=
  match v with
  | JArr _ | JObj _ => false
  | _ => true
  end.

(** A diagnostic whose properties, if it has any, are all scalars. *)
Definition plain (m : jsval) : bool :=
  match m with
  | JUndefined | JNull => false
  | JObj fields => forallb (fun kv => scalar (snd kv)) fields
  | _ => true
  end.

(** A decoded value the classifier accepts: an array without a [null]
    element. *)
Definition is_diagnostic_array (v : jsval) : bool :=
  match v with
  | JArr items => forallb (fun m => negb (nullish m)) items
  | _ => false
  end.

(** An outcome that, when it is an exception, is a [TypeError]. *)
Definition only_TypeError {A} (o : outcome A) : Prop :=
  forall e, o = Throw e -> e = TypeError.

(** An annotation that points at one position: its line span and its
    column span each start where they end. *)
Definition single_position (e : event) : Prop :=
  match e with
  | core_error _ p | core_warning _ p | core_notice _ p =>
      startLine p = endLine p /\ startColumn p = endColumn p
  | _ => True
  end.

(** The channel the reporter routes a diagnostic to, by its [type]. *)
Definition routed (m : jsval) (ev : event) : Prop :=
  (typeIs "error" m = true /\ annotation core_error m = Ok ev) \/
  ((typeIs "warning" m || typeIs "refactor" m || typeIs "convention" m) = true
   /\ annotation core_warning m = Ok ev) \/
  (typeIs "info" m = true /\ annotation core_notice m = Ok ev).

(** The title of an annotation names a severity of its channel. *)
Definition titled (e : event) : bool :=
  match e with
  | core_error _ p => prefix "Linter error " (title p)
  | core_warning _ p =>
      prefix "Linter warning " (title p) ||
      prefix "Linter refactor " (title p) ||
      prefix "Linter convention " (title p)
  | core_notice _ p => prefix "Linter info " (title p)
  | _ => true
  end.

(** A diagnostic whose [message] cannot be rendered: an object with a
    property of its own named [toString]. *)
Definition sample_unrenderable : jsval :=
  JObj [("type", JStr "warning"); ("module", JStr "a"); ("obj", JStr "");
        ("line", JNum 2); ("column", JNum 0); ("path", JStr "a.py");
        ("symbol", JStr "odd"); ("message", JObj [("toString", JNull)]);
        ("message-id", JStr "W0000")].

(** ** The monad *)

Lemma bind_lift_Ok {A B} (a : A) (k : A -> M B) : bind (lift (Ok a)) k = k a.
Proof. unfold bind, lift; simpl. now destruct (k a). Qed.

Lemma bind_lift_Throw {A B} (e : exn) (k : A -> M B) :
  bind (lift (Throw e)) k = ([], Throw e).
Proof. reflexivity. Qed.

Lemma bind_emit {B} (e : event) (k : unit -> M B) :
  bind (emit e) k = (e :: fst (k tt), snd (k tt)).
Proof. reflexivity. Qed.

Lemma trace_bind {A B} (m : M A) (k : A -> M B) :
  exists rest, trace (bind m k) = (trace m ++ rest)%list /\
    (rest = [] \/ exists a, result m = Ok a /\ rest = trace (k a)).
Proof.
  unfold bind, trace, result. destruct (snd m) as [a|e]; simpl.
  - exists (fst (k a)). split; [reflexivity|]. right. now exists a.
  - exists []. rewrite app_nil_r. auto.
Qed.

Lemma bind_Ok {A B} (m : M A) (k : A -> M B) (b : B) :
  result (bind m k) = Ok b ->
  exists a, result m = Ok a /\ result (k a) = Ok b /\
            trace (bind m k) = (trace m ++ trace (k a))%list.
Proof.
  unfold bind, trace, result. destruct (snd m) as [a|e]; simpl; [|discriminate].
  intros H. exists a. auto.
Qed.

(** ** The classifier *)

Lemma hasType_typeIs severity m :
  nullish m = false -> hasType severity m = Ok (typeIs severity m).
Proof. destruct m; simpl; try discriminate; reflexivity. Qed.

Lemma diagnostics_cons m l :
  diagnostics (m :: l) <-> nullish m = false /\ diagnostics l.
Proof.
  unfold diagnostics. simpl. rewrite andb_true_iff, negb_true_iff. tauto.
Qed.

Lemma filter_items_hasType severity l :
  diagnostics l ->
  filter_items (hasType severity) l = Ok (filter (typeIs severity) l).
Proof.
  induction l as [|m l IH]; simpl; [reflexivity|].
  intros H. apply diagnostics_cons in H. destruct H as [Hm Hl].
  rewrite (hasType_typeIs _ _ Hm), (IH Hl). simpl.
  now destruct (typeIs severity m).
Qed.

Lemma classify_diagnostics l :
  diagnostics l ->
  classify (JArr l) =
  Ok {| pylintErrors := filter (typeIs "error") l;
        pylintWarnings := filter (typeIs "warning") l;
        pylintConvention := filter (typeIs "convention") l;
        pylintRefactor := filter (typeIs "refactor") l;
        pylintInfo := filter (typeIs "info") l |}.
Proof.
  intros H. unfold classify, Array_filter.
  now rewrite !(filter_items_hasType _ _ H).
Qed.

Lemma typeIs_unique s1 s2 m :
  typeIs s1 m = true -> typeIs s2 m = true -> s1 = s2.
Proof.
  destruct m; simpl; try discriminate.
  destruct (own "type" fields); simpl; try discriminate.
  intros H1 H2. apply String.eqb_eq in H1, H2. congruence.
Qed.

Lemma length_filter_cons (p : jsval -> bool) m l :
  List.length (filter p (m :: l)) = b2n (p m) + List.length (filter p l).
Proof. simpl. now destruct (p m). Qed.

Lemma one_bucket_each m :
  b2n (typeIs "error" m) + b2n (typeIs "warning" m) +
  b2n (typeIs "convention" m) + b2n (typeIs "refactor" m) +
  b2n (typeIs "info" m) = b2n (recognized m).
Proof.
  unfold recognized, severities, existsb.
  destruct (typeIs "error" m) eqn:E; destruct (typeIs "warning" m) eqn:W;
    destruct (typeIs "convention" m) eqn:C;
    destruct (typeIs "refactor" m) eqn:R;
    destruct (typeIs "info" m) eqn:I; simpl; try reflexivity; exfalso;
    repeat match goal with
           | H1 : typeIs ?a m = true, H2 : typeIs ?b m = true |- _ =>
               pose proof (typeIs_unique _ _ _ H1 H2); discriminate
           end.
Qed.

Lemma bucket_sizes l :
  List.length (filter (typeIs "error") l) +
  List.length (filter (typeIs "warning") l) +
  List.length (filter (typeIs "convention") l) +
  List.length (filter (typeIs "refactor") l) +
  List.length (filter (typeIs "info") l) =
  List.length (filter recognized l).
Proof.
  induction l as [|m l IH]; [reflexivity|].
  rewrite !length_filter_cons, <- IH, <- (one_bucket_each m). lia.
Qed.

Lemma length_filter_le (p : jsval -> bool) l :
  List.length (filter p l) <= List.length l.
Proof.
  induction l as [|m l IH]; simpl; [lia|]. destruct (p m); simpl; lia.
Qed.

Lemma filter_all (p : jsval -> bool) l :
  forallb p l = true -> filter p l = l.
Proof.
  induction l as [|m l IH]; simpl; [reflexivity|].
  destruct (p m); simpl; [|discriminate]. intros H. now rewrite IH.
Qed.

Lemma bucket_filter l severity :
  In severity severities ->
  bucket {| pylintErrors := filter (typeIs "error") l;
            pylintWarnings := filter (typeIs "warning") l;
            pylintConvention := filter (typeIs "convention") l;
            pylintRefactor := filter (typeIs "refactor") l;
            pylintInfo := filter (typeIs "info") l |} severity =
  filter (typeIs severity) l.
Proof.
  simpl. intros [<-|[<-|[<-|[<-|[<-|[]]]]]]; reflexivity.
Qed.

Lemma bucket_unknown b severity :
  ~ In severity severities -> bucket b severity = [].
Proof.
  intros H. unfold bucket.
  repeat match goal with
         | |- context [String.eqb severity ?s] =>
             destruct (String.eqb_spec severity s);
             [exfalso; apply H; subst; simpl; tauto|]
         end.
  reflexivity.
Qed.

(** C4. On every diagnostic list the classifier yields five buckets; the
    bucket of each severity name holds exactly the diagnostics whose [type]
    is that string, in their input order; no diagnostic is in two buckets;
    the sizes add up to at most the length of the list, and to the length
    when every [type] is one of the five; a diagnostic of another [type] is
    in no bucket, and the classifier does not throw on it. *)
Theorem C4_buckets_partition (l : list jsval) :
  diagnostics l ->
  exists b, classify (JArr l) = Ok b /\
    (forall severity, In severity severities ->
       bucket b severity = filter (typeIs severity) l) /\
    (forall s1 s2 m, In m (bucket b s1) -> In m (bucket b s2) -> s1 = s2) /\
    List.length (pylintErrors b) + List.length (pylintWarnings b) +
    List.length (pylintConvention b) + List.length (pylintRefactor b) +
    List.length (pylintInfo b) <= List.length l /\
    (forallb recognized l = true ->
     List.length (pylintErrors b) + List.length (pylintWarnings b) +
     List.length (pylintConvention b) + List.length (pylintRefactor b) +
     List.length (pylintInfo b) = List.length l) /\
    (forall m severity, In m l -> recognized m = false ->
       ~ In m (bucket b severity)).
Proof.
  intros Hl. eexists. split; [apply (classify_diagnostics _ Hl)|].
  assert (Hin : forall m s,
             In m (bucket {| pylintErrors := filter (typeIs "error") l;
                             pylintWarnings := filter (typeIs "warning") l;
                             pylintConvention := filter (typeIs "convention") l;
                             pylintRefactor := filter (typeIs "refactor") l;
                             pylintInfo := filter (typeIs "info") l |} s) ->
             In s severities /\ In m l /\ typeIs s m = true).
  { intros m s H. destruct (in_dec string_dec s severities) as [Hs|Hs].
    - rewrite (bucket_filter _ _ Hs) in H. apply filter_In in H. tauto.
    - rewrite (bucket_unknown _ _ Hs) in H. destruct H. }
  split; [apply bucket_filter|]. split.
  { intros s1 s2 m H1 H2. apply Hin in H1, H2.
    eapply typeIs_unique; [apply H1|apply H2]. }
  cbn [pylintErrors pylintWarnings pylintConvention pylintRefactor pylintInfo].
  rewrite bucket_sizes. split; [apply length_filter_le|]. split.
  { intros H. now rewrite (filter_all _ _ H). }
  intros m s Hm Hr H. apply Hin in H. destruct H as (Hs & _ & Ht).
  unfold recognized in Hr.
  assert (existsb (fun severity => typeIs severity m) severities = true)
    by (apply existsb_exists; eauto).
  congruence.
Qed.

Lemma C4_buckets_partition_witness :
  diagnostics sample_list /\
  exists b, classify (JArr sample_list) = Ok b /\
    (forall severity, In severity severities ->
       bucket b severity = filter (typeIs severity) sample_list) /\
    (forall s1 s2 m, In m (bucket b s1) -> In m (bucket b s2) -> s1 = s2) /\
    List.length (pylintErrors b) + List.length (pylintWarnings b) +
    List.length (pylintConvention b) + List.length (pylintRefactor b) +
    List.length (pylintInfo b) <= List.length sample_list /\
    (forallb recognized sample_list = true ->
     List.length (pylintErrors b) + List.length (pylintWarnings b) +
     List.length (pylintConvention b) + List.length (pylintRefactor b) +
     List.length (pylintInfo b) = List.length sample_list) /\
    (forall m severity, In m sample_list -> recognized m = false ->
       ~ In m (bucket b severity)).
Proof.
  split; [reflexivity|]. apply (C4_buckets_partition sample_list).
  reflexivity.
Defined.

(** ** The reporter *)

Lemma annotate_annotation channel m :
  annotate channel m =
  match annotation channel m with
  | Ok ev => ([ev], Ok tt)
  | Throw e => ([], Throw e)
  end.
Proof.
  unfold annotate, annotation.
  destruct (annotationMessage m) as [text|e]; simpl; [|reflexivity].
  rewrite bind_lift_Ok.
  destruct (annotationProperties m) as [properties|e]; simpl; reflexivity.
Qed.

Lemma forEach_annotate channel l :
  is_channel channel ->
  annotations_only (trace (forEach (annotate channel) l)).
Proof.
  intros Hc. induction l as [|m l IH]; simpl; [constructor|].
  rewrite annotate_annotation.
  destruct (annotation channel m) as [ev|e] eqn:E; [|constructor].
  assert (Hev : is_annotation ev = true).
  { unfold annotation in E.
    destruct (annotationMessage m); simpl in E; [|discriminate].
    destruct (annotationProperties m); simpl in E; [|discriminate].
    injection E as <-. apply Hc. }
  unfold bind, trace in *; simpl.
  destruct (forEach (annotate channel) l) as [t [[]|e]]; simpl in *;
    constructor; assumption.
Qed.

(** The annotations a loop emitted are an initial part of those of its
    items, and all of them when the loop completes. *)
Lemma forEach_annotate_prefix channel l :
  exists rest,
    map (annotation channel) l =
    (map Ok (trace (forEach (annotate channel) l)) ++ rest)%list /\
    (result (forEach (annotate channel) l) = Ok tt -> rest = []).
Proof.
  induction l as [|m l (rest & IH1 & IH2)]; simpl.
  - exists []. split; reflexivity.
  - rewrite annotate_annotation.
    destruct (annotation channel m) as [ev|e] eqn:E.
    + unfold bind, trace, result in *; simpl.
      destruct (forEach (annotate channel) l) as [t [[]|e]]; simpl in *;
        exists rest; rewrite IH1; split; auto.
    + exists (Throw e :: map (annotation channel) l).
      split; [reflexivity|discriminate].
Qed.

Lemma sequence_prefix (m k : M unit) (L1 L2 : list (outcome event)) :
  (exists r1, L1 = (map Ok (trace m) ++ r1)%list /\
              (result m = Ok tt -> r1 = [])) ->
  (exists r2, L2 = (map Ok (trace k) ++ r2)%list /\
              (result k = Ok tt -> r2 = [])) ->
  exists r, (L1 ++ L2)%list = (map Ok (trace (m ;; k)) ++ r)%list /\
            (result (m ;; k) = Ok tt -> r = []).
Proof.
  intros (r1 & -> & H1) (r2 & -> & H2).
  unfold bind, trace, result in *. destruct m as [t1 [[]|e]]; simpl in *.
  - exists r2. rewrite (H1 eq_refl), app_nil_r, map_app, app_assoc.
    split; auto.
  - exists (r1 ++ map Ok (fst k) ++ r2)%list. rewrite <- app_assoc.
    split; [reflexivity|discriminate].
Qed.

Lemma annotations_only_bind {A B} (m : M A) (k : A -> M B) :
  annotations_only (trace m) ->
  (forall a, annotations_only (trace (k a))) ->
  annotations_only (trace (bind m k)).
Proof.
  intros Hm Hk. unfold annotations_only.
  destruct (trace_bind m k) as (rest & -> & [->|(a & _ & ->)]);
    apply Forall_app; split; try exact Hm.
  - constructor.
  - apply Hk.
Qed.

Lemma loops_annotations_only b : annotations_only (trace (loops b)).
Proof.
  unfold loops.
  apply annotations_only_bind; [now apply forEach_annotate|intros _].
  apply annotations_only_bind; [now apply forEach_annotate|intros _].
  now apply forEach_annotate.
Qed.

Lemma loops_prefix b :
  exists rest,
    (map (annotation core_error) (pylintErrors b) ++
     map (annotation core_warning)
       (pylintWarnings b ++ pylintRefactor b ++ pylintConvention b) ++
     map (annotation core_notice) (pylintInfo b))%list =
    (map Ok (trace (loops b)) ++ rest)%list /\
    (result (loops b) = Ok tt -> rest = []).
Proof.
  unfold loops.
  apply sequence_prefix; [apply forEach_annotate_prefix|].
  apply sequence_prefix; apply forEach_annotate_prefix.
Qed.

Lemma reportResults_classified v b pylintArgs :
  classify v = Ok b ->
  reportResults v pylintArgs =
  (core_setFailed (Some (summary b pylintArgs)) :: trace (loops b),
   result (loops b)).
Proof.
  intros H. unfold reportResults. rewrite H, bind_lift_Ok, bind_emit.
  reflexivity.
Qed.

Lemma reportResults_threw v e pylintArgs :
  classify v = Throw e -> reportResults v pylintArgs = ([], Throw e).
Proof. intros H. unfold reportResults. now rewrite H. Qed.

Lemma filter_annotations_only t :
  annotations_only t -> filter is_annotation t = t.
Proof.
  induction 1 as [|e t He _ IH]; simpl; [reflexivity|]. now rewrite He, IH.
Qed.

Lemma filter_setFailed_annotations_only t :
  annotations_only t -> filter is_setFailed t = [].
Proof.
  induction 1 as [|e t He _ IH]; simpl; [reflexivity|].
  destruct e; try discriminate; exact IH.
Qed.

Lemma filter_items_diagnostics severity l kept :
  filter_items (hasType severity) l = Ok kept -> diagnostics l.
Proof.
  revert kept. induction l as [|m l IH]; intros kept H; [reflexivity|].
  simpl in H. unfold hasType at 1 in H. apply diagnostics_cons.
  destruct m; simpl in H; try discriminate;
    (split; [reflexivity|]);
    destruct (filter_items (hasType severity) l) eqn:E;
    try discriminate; eapply IH; reflexivity.
Qed.

Lemma classify_Ok_diagnostics l b :
  classify (JArr l) = Ok b -> diagnostics l.
Proof.
  unfold classify. simpl.
  destruct (filter_items (hasType "error") l) eqn:E; [|discriminate].
  intros _. eapply filter_items_diagnostics; eassumption.
Qed.

Lemma append_assoc (a b c : string) : (a ++ b) ++ c = a ++ b ++ c.
Proof. induction a as [|x a IH]; simpl; [reflexivity|]. now rewrite IH. Qed.

Lemma appendToSummaryIfNonEmpty_filter lines severity l :
  appendToSummaryIfNonEmpty lines (filter (typeIs severity) l) severity =
  (lines ++
   (let n := List.length (filter (typeIs severity) l) in
    if Nat.eqb n 0 then []
    else [(Number_toString (Z.of_nat n) ++ " " ++ severity)%string]))%list.
Proof.
  unfold appendToSummaryIfNonEmpty.
  destruct (List.length (filter (typeIs severity) l)); simpl;
    [now rewrite app_nil_r|reflexivity].
Qed.

Lemma summary_diagnostics l pylintArgs :
  summary {| pylintErrors := filter (typeIs "error") l;
             pylintWarnings := filter (typeIs "warning") l;
             pylintConvention := filter (typeIs "convention") l;
             pylintRefactor := filter (typeIs "refactor") l;
             pylintInfo := filter (typeIs "info") l |} pylintArgs =
  join (LF ++ LF) (summaryTitle pylintArgs :: summary_entries l).
Proof.
  unfold summary.
  cbn [pylintErrors pylintWarnings pylintConvention pylintRefactor pylintInfo].
  rewrite !appendToSummaryIfNonEmpty_filter.
  unfold summary_entries, severities. cbn [flat_map].
  rewrite <- !app_assoc, app_nil_r. reflexivity.
Qed.

Lemma reportResults_diagnostics l pylintArgs :
  diagnostics l ->
  exists anns rest,
    annotations_only anns /\
    trace (reportResults (JArr l) pylintArgs) =
    core_setFailed
      (Some (join (LF ++ LF) (summaryTitle pylintArgs :: summary_entries l)))
    :: anns /\
    emission_order l = (map Ok anns ++ rest)%list /\
    (result (reportResults (JArr l) pylintArgs) = Ok tt -> rest = []).
Proof.
  intros Hl.
  rewrite (reportResults_classified _ _ _ (classify_diagnostics _ Hl)).
  rewrite summary_diagnostics.
  destruct (loops_prefix
              {| pylintErrors := filter (typeIs "error") l;
                 pylintWarnings := filter (typeIs "warning") l;
                 pylintConvention := filter (typeIs "convention") l;
                 pylintRefactor := filter (typeIs "refactor") l;
                 pylintInfo := filter (typeIs "info") l |})
    as (rest & Hp & Hr).
  eexists. exists rest. split; [apply loops_annotations_only|].
  split; [reflexivity|]. split; [exact Hp|exact Hr].
Qed.

(** C1, as the three loops run. On every decoded list, the annotations
    the reporter emits are, in this order: on the error channel the
    diagnostics of type error; on the warning channel those of type
    warning, then those of type refactor, then those of type convention; on
    the notice channel those of type info; each of the five runs in input
    order. An exception can only cut this sequence short: what was emitted
    is an initial part of it, and all of it when the reporter completes. *)
Theorem C1_emission_order (l : list jsval) (pylintArgs : list ParseEntry) :
  exists rest,
    emission_order l =
    (map Ok (filter is_annotation
               (trace (reportResults (JArr l) pylintArgs))) ++ rest)%list /\
    (result (reportResults (JArr l) pylintArgs) = Ok tt -> rest = []).
Proof.
  destruct (classify (JArr l)) as [b|e] eqn:E.
  - apply classify_Ok_diagnostics in E.
    destruct (reportResults_diagnostics l pylintArgs E)
      as (anns & rest & Ha & Ht & Hp & Hr).
    exists rest. rewrite Ht. cbn [filter is_annotation].
    rewrite (filter_annotations_only _ Ha). auto.
  - rewrite (reportResults_threw _ _ _ E). exists (emission_order l).
    split; [reflexivity|discriminate].
Qed.

Lemma C1_emission_order_witness :
  emission_order sample_list =
  map Ok (filter is_annotation
            (trace (reportResults (JArr sample_list) [Word "src"]))).
Proof.
  destruct (C1_emission_order sample_list [Word "src"]) as (rest & -> & H).
  rewrite (H eq_refl). apply app_nil_r.
Defined.

(** C1, as worded, fails: a refactor followed by a warning is reported
    without an exception, the warning first, while the merged group in
    input order would put the refactor first. *)
Lemma C1_merged_order_counterexample :
  result (reportResults (JArr [sample_refactor; sample_warning])
            [Word "src"]) = Ok tt /\
  map Ok (filter is_annotation
            (trace (reportResults (JArr [sample_refactor; sample_warning])
                      [Word "src"]))) <>
  emission_order_merged [sample_refactor; sample_warning].
Proof. split; [reflexivity|]. vm_compute. discriminate. Qed.

(** ** The run *)

Lemma annotations_only_no_setFailed t :
  annotations_only t -> filter is_setFailed t = [].
Proof. apply filter_setFailed_annotations_only. Qed.


Section RunFacts.

Variable getInput : string -> string.
Variable shellParse : string -> outcome (list ParseEntry).
Variable exec : string -> list ParseEntry -> ExecResult.
Variable JSON_parse : string -> outcome jsval.

Lemma run_rejected parsed out message :
  rejected_with getInput shellParse exec parsed out message ->
  run getInput shellParse exec JSON_parse =
  (exec_exec "pylint" (parsed ++ [Word "--output-format=json"]) ::
     trace (onRejected JSON_parse out
              (parsed ++ [Word "--output-format=json"]) message),
   result (onRejected JSON_parse out
             (parsed ++ [Word "--output-format=json"]) message)).
Proof.
  intros [Hp He]. unfold run. rewrite Hp, bind_lift_Ok, bind_emit, He.
  reflexivity.
Qed.

Lemma onRejected_usage out pylintArgs message :
  (0 <? indexOf message "exit code 32")%Z = true ->
  onRejected JSON_parse out pylintArgs message =
  ([console_error (ProcessError message); core_setFailed None], Ok tt).
Proof. intros H. unfold onRejected. now rewrite H. Qed.

Lemma onRejected_undecodable out pylintArgs message e :
  (0 <? indexOf message "exit code 32")%Z = false ->
  JSON_parse out = Throw e ->
  onRejected JSON_parse out pylintArgs message =
  ([console_error (ProcessError message); console_error e], Ok tt).
Proof. intros H E. unfold onRejected. now rewrite H, E. Qed.

Lemma onRejected_decoded out pylintArgs message v :
  (0 <? indexOf message "exit code 32")%Z = false ->
  JSON_parse out = Ok v ->
  onRejected JSON_parse out pylintArgs message =
  try_catch (reportResults v pylintArgs)
    (fun reportingError =>
       emit (console_error (ProcessError message)) ;;
       emit (console_error reportingError)).
Proof. intros H E. unfold onRejected. now rewrite H, E, bind_lift_Ok. Qed.

Lemma onRejected_diagnostics out pylintArgs message l :
  (0 <? indexOf message "exit code 32")%Z = false ->
  JSON_parse out = Ok (JArr l) ->
  diagnostics l ->
  exists anns logs,
    annotations_only anns /\
    filter is_setFailed logs = [] /\
    filter is_annotation logs = [] /\
    filter is_exec logs = [] /\
    trace (onRejected JSON_parse out pylintArgs message) =
    (core_setFailed
       (Some (join (LF ++ LF)
                (summaryTitle pylintArgs :: summary_entries l)))
     :: anns ++ logs)%list.
Proof.
  intros H E Hl. rewrite (onRejected_decoded _ _ _ _ H E).
  destruct (reportResults_diagnostics l pylintArgs Hl)
    as (anns & _ & Ha & Ht & _).
  unfold try_catch. unfold trace in Ht.
  destruct (snd (reportResults (JArr l) pylintArgs)) as [[]|e].
  - exists anns, []. rewrite app_nil_r. repeat split; auto.
  - exists anns, [console_error (ProcessError message); console_error e].
    repeat split; auto. unfold trace. simpl fst at 1. rewrite Ht.
    reflexivity.
Qed.



(** C6. On a diagnostic list the failure message is the title line, which
    holds the argument list the subprocess was given, followed by one
    entry [<count> <severity-name>] per non-empty bucket in the order
    error, warning, convention, refactor, info, the lines joined by a
    blank line. *)
Theorem C6_summary (parsed : list ParseEntry) (out message : string)
    (l : list jsval) :
  rejected_with getInput shellParse exec parsed out message ->
  (0 <? indexOf message "exit code 32")%Z = false ->
  JSON_parse out = Ok (JArr l) ->
  diagnostics l ->
  exists after,
    trace (run getInput shellParse exec JSON_parse) =
    exec_exec "pylint" (parsed ++ [Word "--output-format=json"]) ::
    core_setFailed
      (Some (join (LF ++ LF)
         (("Pylint linter issues detected: (options '" ++
           join "," (map ParseEntry_toString
                       (parsed ++ [Word "--output-format=json"])) ++ "')")
          :: summary_entries l)))
    :: after.
Proof.
  intros Hr H E Hl. rewrite (run_rejected _ _ _ Hr). unfold trace at 1.
  cbn [fst].
  destruct (onRejected_diagnostics out
              (parsed ++ [Word "--output-format=json"]) message l H E Hl)
    as (anns & logs & _ & _ & _ & _ & ->).
  eexists. reflexivity.
Qed.

(** C8. On a non-empty diagnostic list the run is marked failed with the
    summary right after the subprocess call, ahead of every annotation,
    and nothing that follows marks it failed again. *)
Theorem C8_failed_once_before_annotations (parsed : list ParseEntry)
    (out message : string) (l : list jsval) :
  rejected_with getInput shellParse exec parsed out message ->
  (0 <? indexOf message "exit code 32")%Z = false ->
  JSON_parse out = Ok (JArr l) ->
  diagnostics l ->
  l <> [] ->
  exists after,
    trace (run getInput shellParse exec JSON_parse) =
    exec_exec "pylint" (parsed ++ [Word "--output-format=json"]) ::
    core_setFailed
      (Some (join (LF ++ LF)
         (summaryTitle (parsed ++ [Word "--output-format=json"])
          :: summary_entries l)))
    :: after /\
    filter is_setFailed after = [].
Proof.
  intros Hr H E Hl _. rewrite (run_rejected _ _ _ Hr). unfold trace at 1.
  cbn [fst].
  destruct (onRejected_diagnostics out
              (parsed ++ [Word "--output-format=json"]) message l H E Hl)
    as (anns & logs & Ha & Hs & _ & _ & ->).
  eexists. split; [reflexivity|].
  now rewrite filter_app, (annotations_only_no_setFailed _ Ha), Hs.
Qed.

(** C9. When the buffer decodes to the empty array, the run is marked
    failed with the title line alone and no annotation is emitted. *)
Theorem C9_empty_list_fails (parsed : list ParseEntry)
    (out message : string) :
  rejected_with getInput shellParse exec parsed out message ->
  (0 <? indexOf message "exit code 32")%Z = false ->
  JSON_parse out = Ok (JArr []) ->
  run getInput shellParse exec JSON_parse =
  ([exec_exec "pylint" (parsed ++ [Word "--output-format=json"]);
    core_setFailed
      (Some ("Pylint linter issues detected: (options '" ++
             join "," (map ParseEntry_toString
                         (parsed ++ [Word "--output-format=json"])) ++
             "')"))],
   Ok tt).
Proof.
  intros Hr H E. rewrite (run_rejected _ _ _ Hr).
  rewrite (onRejected_decoded _ _ _ _ H E). reflexivity.
Qed.

(** C2, what the code does. With an exit that is not taken for a usage
    error and a buffer [JSON.parse] rejects, the run logs the subprocess
    error, then the decoding error, emits nothing else and ends: it is
    never marked failed. *)
Theorem C2_undecodable_buffer_not_failed (parsed : list ParseEntry)
    (out message : string) (reportingError : exn) :
  rejected_with getInput shellParse exec parsed out message ->
  (0 <? indexOf message "exit code 32")%Z = false ->
  JSON_parse out = Throw reportingError ->
  run getInput shellParse exec JSON_parse =
  ([exec_exec "pylint" (parsed ++ [Word "--output-format=json"]);
    console_error (ProcessError message);
    console_error reportingError],
   Ok tt) /\
  filter is_setFailed (trace (run getInput shellParse exec JSON_parse)) = [].
Proof.
  intros Hr H E. rewrite (run_rejected _ _ _ Hr).
  rewrite (onRejected_undecodable _ _ _ _ H E). split; reflexivity.
Qed.

End RunFacts.



Lemma C6_summary_witness :
  exists after,
    trace (run (sample_getInput "src") sample_shellParse
             (sample_exec sample_output (Some sample_message))
             (sample_JSON_parse [JArr sample_list])) =
    exec_exec "pylint" [Word "src"; Word "--output-format=json"] ::
    core_setFailed
      (Some (join (LF ++ LF)
         ["Pylint linter issues detected: (options 'src,--output-format=json')";
          "1 error"; "2 warning"; "1 convention"; "1 refactor"; "1 info"]))
    :: after.
Proof.
  apply (C6_summary (sample_getInput "src") sample_shellParse
           (sample_exec sample_output (Some sample_message))
           (sample_JSON_parse [JArr sample_list])
           [Word "src"] sample_output sample_message sample_list).
  - split; reflexivity.
  - reflexivity.
  - reflexivity.
  - reflexivity.
Defined.

Lemma C8_failed_once_before_annotations_witness :
  exists after,
    trace (run (sample_getInput "src") sample_shellParse
             (sample_exec sample_output (Some sample_message))
             (sample_JSON_parse [JArr sample_list])) =
    exec_exec "pylint" [Word "src"; Word "--output-format=json"] ::
    core_setFailed
      (Some (join (LF ++ LF)
         (summaryTitle [Word "src"; Word "--output-format=json"]
          :: summary_entries sample_list)))
    :: after /\
    filter is_setFailed after = [].
Proof.
  apply (C8_failed_once_before_annotations (sample_getInput "src")
           sample_shellParse
           (sample_exec sample_output (Some sample_message))
           (sample_JSON_parse [JArr sample_list])
           [Word "src"] sample_output sample_message sample_list).
  - split; reflexivity.
  - reflexivity.
  - reflexivity.
  - reflexivity.
  - discriminate.
Defined.

Lemma C9_empty_list_fails_witness :
  sample_JSON_parse [JArr []] "[]" = Ok (JArr []) /\
  run (sample_getInput "src") sample_shellParse
    (sample_exec "[]" (Some (exitCodeMessage "/usr/bin/pylint" 1)))
    (sample_JSON_parse [JArr []]) =
  ([exec_exec "pylint" [Word "src"; Word "--output-format=json"];
    core_setFailed
      (Some "Pylint linter issues detected: (options 'src,--output-format=json')")],
   Ok tt).
Proof.
  split; [reflexivity|].
  apply (C9_empty_list_fails (sample_getInput "src") sample_shellParse
           (sample_exec "[]" (Some (exitCodeMessage "/usr/bin/pylint" 1)))
           (sample_JSON_parse [JArr []])
           [Word "src"] "[]" (exitCodeMessage "/usr/bin/pylint" 1)).
  - split; reflexivity.
  - reflexivity.
  - reflexivity.
Defined.

Lemma C2_undecodable_buffer_not_failed_witness :
  sample_JSON_parse [JArr sample_list] "[{" = Throw SyntaxError /\
  filter is_setFailed
    (trace (run (sample_getInput "src") sample_shellParse
              (sample_exec "[{" (Some (exitCodeMessage "/usr/bin/pylint" 2)))
              (sample_JSON_parse [JArr sample_list]))) = [].
Proof.
  split; [reflexivity|].
  apply (C2_undecodable_buffer_not_failed (sample_getInput "src")
           sample_shellParse
           (sample_exec "[{" (Some (exitCodeMessage "/usr/bin/pylint" 2)))
           (sample_JSON_parse [JArr sample_list])
           [Word "src"] "[{" (exitCodeMessage "/usr/bin/pylint" 2)
           SyntaxError).
  - split; reflexivity.
  - reflexivity.
  - reflexivity.
Defined.

(** ** The exit-code test *)

Lemma substring_skip (a b : string) (n : nat) :
  substring (String.length a) n (a ++ b) = substring 0 n b.
Proof. induction a as [|x a IH]; simpl; [reflexivity|exact IH]. Qed.

Lemma indexOf_exit_code_32 (toolPath digits : string) :
  (0 <? indexOf
          ("The process '" ++ toolPath ++ "' failed with exit code 32" ++ digits)
          "exit code 32")%Z = true.
Proof.
  unfold indexOf.
  destruct (index 0 "exit code 32"
              ("The process '" ++ toolPath ++
               "' failed with exit code 32" ++ digits)) as [i|] eqn:I.
  - destruct i as [|i]; [|reflexivity].
    apply index_correct1 in I. simpl in I. discriminate.
  - exfalso.
    apply (index_correct3 0
             (String.length ("The process '" ++ toolPath ++ "' failed with ")))
      in I; [|discriminate|lia].
    apply I.
    replace ("The process '" ++ toolPath ++
             "' failed with exit code 32" ++ digits)
      with (("The process '" ++ toolPath ++ "' failed with ") ++
            "exit code 32" ++ digits)
      by (now rewrite !append_assoc).
    rewrite substring_skip. simpl. now destruct digits.
Qed.

(** With the exit codes a POSIX process can end with, 0 to 255, the test
    singles out 32 (here for pylint at [/usr/bin/pylint]). *)
Lemma exit_codes_below_256 :
  forallb
    (fun code =>
       Bool.eqb
         (0 <? indexOf (exitCodeMessage "/usr/bin/pylint" (Z.of_nat code))
                 "exit code 32")%Z
         (Nat.eqb code 32))
    (seq 0 256) = true.
Proof. vm_compute. reflexivity. Qed.

Section ExitCodes.

Variable getInput : string -> string.
Variable shellParse : string -> outcome (list ParseEntry).
Variable exec : string -> list ParseEntry -> ExecResult.
Variable JSON_parse : string -> outcome jsval.

(** Exit code 32 is taken for a usage error, whatever the buffer holds:
    the error is logged, the run is marked failed without a message, and
    the buffer is never decoded. *)
Lemma usage_error_32 (parsed : list ParseEntry) (out toolPath : string) :
  rejected_with getInput shellParse exec parsed out
    (exitCodeMessage toolPath 32) ->
  run getInput shellParse exec JSON_parse =
  ([exec_exec "pylint" (parsed ++ [Word "--output-format=json"]);
    console_error (ProcessError (exitCodeMessage toolPath 32));
    core_setFailed None],
   Ok tt).
Proof.
  intros Hr. rewrite (run_rejected _ _ _ _ _ _ _ Hr).
  rewrite onRejected_usage; [reflexivity|].
  apply (indexOf_exit_code_32 toolPath "").
Qed.

(** C3, what the code does. Every exit code whose decimal writing starts
    with 32 (32 itself, but also 320 or 3221225477) is taken for a usage
    error: the error is logged, the run is marked failed without a
    message, and the buffer is not decoded, so no diagnostic is
    reported. *)
Theorem C3_codes_starting_with_32_are_usage_errors
    (parsed : list ParseEntry) (out toolPath : string) (exitCode : Z)
    (digits : string) :
  Number_toString exitCode = "32" ++ digits ->
  rejected_with getInput shellParse exec parsed out
    (exitCodeMessage toolPath exitCode) ->
  run getInput shellParse exec JSON_parse =
  ([exec_exec "pylint" (parsed ++ [Word "--output-format=json"]);
    console_error (ProcessError (exitCodeMessage toolPath exitCode));
    core_setFailed None],
   Ok tt).
Proof.
  intros Hd Hr. rewrite (run_rejected _ _ _ _ _ _ _ Hr).
  rewrite onRejected_usage; [reflexivity|].
  unfold exitCodeMessage. rewrite Hd.
  apply (indexOf_exit_code_32 toolPath digits).
Qed.

End ExitCodes.

Lemma C3_codes_starting_with_32_are_usage_errors_witness :
  Number_toString 320 = "32" ++ "0" /\
  run (sample_getInput "src") sample_shellParse
    (sample_exec sample_output (Some (exitCodeMessage "/usr/bin/pylint" 320)))
    (sample_JSON_parse [JArr sample_list]) =
  ([exec_exec "pylint" [Word "src"; Word "--output-format=json"];
    console_error (ProcessError (exitCodeMessage "/usr/bin/pylint" 320));
    core_setFailed None],
   Ok tt).
Proof.
  split; [reflexivity|].
  apply (C3_codes_starting_with_32_are_usage_errors (sample_getInput "src")
           sample_shellParse
           (sample_exec sample_output
              (Some (exitCodeMessage "/usr/bin/pylint" 320)))
           (sample_JSON_parse [JArr sample_list])
           [Word "src"] sample_output "/usr/bin/pylint" 320 "0").
  - reflexivity.
  - split; reflexivity.
Defined.

(** ** The annotation of one diagnostic *)

Lemma Number_toString_safe (n : Z) :
  safe_integer n = true -> Number_toString n = decimal n.
Proof. intros H. unfold Number_toString. now rewrite H. Qed.

(** C5. A diagnostic with the fields of the schema, its line and column
    safe integers, is annotated with the title
    [Linter <type> <message-id> (<symbol>)], its path as the file, its line
    as both ends of the line span, its column as both ends of the column
    span, and as body its message, a blank line, and
    [<context> (<path>:<line>:<column>)] with the line and the column in
    decimal digits, where the context is [obj] when there is one and the
    module name when [obj] is falsy. *)
Theorem C5_annotation_of_a_diagnostic
    (channel : string -> AnnotationProperties -> event) (m obj : jsval)
    (ty id symbol path text context : string) (line column : Z) :
  getProp m "type" = Ok (JStr ty) ->
  getProp m "message-id" = Ok (JStr id) ->
  getProp m "symbol" = Ok (JStr symbol) ->
  getProp m "path" = Ok (JStr path) ->
  getProp m "line" = Ok (JNum line) ->
  safe_integer line = true ->
  getProp m "column" = Ok (JNum column) ->
  safe_integer column = true ->
  getProp m "message" = Ok (JStr text) ->
  getProp m "obj" = Ok obj ->
  (obj = JStr context /\ context <> "") \/
  (ToBoolean obj = false /\ getProp m "module" = Ok (JStr context)) ->
  annotation channel m =
  Ok (channel
        (text ++ LF ++ LF ++
         context ++ " (" ++ path ++ ":" ++ decimal line ++ ":" ++
         decimal column ++ ")")
        {| title := "Linter " ++ ty ++ " " ++ id ++ " (" ++ symbol ++ ")";
           file := JStr path;
           startLine := JNum line;
           endLine := JNum line;
           startColumn := JNum column;
           endColumn := JNum column |}).
Proof.
  intros Hty Hid Hsym Hpath Hline Sline Hcol Scol Htext Hobj Hctx.
  unfold annotation, annotationMessage, annotationProperties.
  rewrite Hty, Hid, Hsym, Hpath, Hline, Hcol, Htext, Hobj.
  destruct Hctx as [[-> Hne]|[Hfalsy Hmod]].
  - cbn [obind ToString ToBoolean].
    rewrite (Number_toString_safe _ Sline), (Number_toString_safe _ Scol).
    destruct (String.eqb_spec context ""); [contradiction|].
    cbn [negb obind]. now rewrite !append_assoc.
  - rewrite Hmod. cbn [obind ToString]. rewrite Hfalsy.
    rewrite (Number_toString_safe _ Sline), (Number_toString_safe _ Scol).
    cbn [obind]. now rewrite !append_assoc.
Qed.

Lemma C5_annotation_of_a_diagnostic_witness :
  annotation core_error sample_error =
  Ok (core_error
        ("bad" ++ LF ++ LF ++ "foo (a.py:3:1)")
        {| title := "Linter error E1 (bad-thing)";
           file := JStr "a.py";
           startLine := JNum 3;
           endLine := JNum 3;
           startColumn := JNum 1;
           endColumn := JNum 1 |}).
Proof.
  apply (C5_annotation_of_a_diagnostic core_error sample_error (JStr "foo")
           "error" "E1" "bad-thing" "a.py" "bad" "foo" 3 1);
    try reflexivity.
  left. split; [reflexivity|discriminate].
Defined.

(** The empty string, [undefined] and [null] are falsy. *)
Lemma falsy_obj_values :
  ToBoolean (JStr "") = false /\ ToBoolean JUndefined = false /\
  ToBoolean JNull = false.
Proof. repeat split. Qed.

(** C10. When [obj] is falsy (the empty string, absent, [null]) the
    context of the body is the module name; the line and the column, safe
    integers, follow in decimal digits. *)
Theorem C10_falsy_obj_falls_back_to_module (m obj : jsval)
    (text modname path : string) (line column : Z) :
  getProp m "obj" = Ok obj ->
  ToBoolean obj = false ->
  getProp m "message" = Ok (JStr text) ->
  getProp m "module" = Ok (JStr modname) ->
  getProp m "path" = Ok (JStr path) ->
  getProp m "line" = Ok (JNum line) ->
  safe_integer line = true ->
  getProp m "column" = Ok (JNum column) ->
  safe_integer column = true ->
  annotationMessage m =
  Ok (text ++ LF ++ LF ++
      modname ++ " (" ++ path ++ ":" ++ decimal line ++ ":" ++
      decimal column ++ ")").
Proof.
  intros Hobj Hfalsy Htext Hmod Hpath Hline Sline Hcol Scol.
  unfold annotationMessage.
  rewrite Hobj, Htext, Hmod, Hpath, Hline, Hcol.
  cbn [obind ToString]. rewrite Hfalsy.
  rewrite (Number_toString_safe _ Sline), (Number_toString_safe _ Scol).
  cbn [obind]. now rewrite !append_assoc.
Qed.

Lemma C10_falsy_obj_falls_back_to_module_witness :
  getProp sample_warning "obj" = Ok (JStr "") /\
  annotationMessage sample_warning =
  Ok ("Unused import os" ++ LF ++ LF ++ "a (a.py:1:0)").
Proof.
  split; [reflexivity|].
  apply (C10_falsy_obj_falls_back_to_module sample_warning (JStr "")
           "Unused import os" "a" "a.py" 1 0); reflexivity.
Defined.

(** ** The worked example of the specification *)

(** Exit code 2 and a buffer holding the one error of the example: the run
    is marked failed with the title and [1 error], and one annotation goes
    to the error channel. *)
Example run_exit_code_2 :
  run (sample_getInput "src") sample_shellParse
    (sample_exec (json_text (JArr [sample_error]))
       (Some (exitCodeMessage "/usr/bin/pylint" 2)))
    (sample_JSON_parse [JArr [sample_error]]) =
  ([exec_exec "pylint" [Word "src"; Word "--output-format=json"];
    core_setFailed
      (Some ("Pylint linter issues detected: (options 'src,--output-format=json')"
             ++ LF ++ LF ++ "1 error"));
    core_error ("bad" ++ LF ++ LF ++ "foo (a.py:3:1)")
      {| title := "Linter error E1 (bad-thing)";
         file := JStr "a.py";
         startLine := JNum 3;
         endLine := JNum 3;
         startColumn := JNum 1;
         endColumn := JNum 1 |}],
   Ok tt).
Proof. reflexivity. Qed.

(** ** Exceptions of the classifier *)

Lemma only_TypeError_obind {A B} (o : outcome A) (k : A -> outcome B) :
  only_TypeError o -> (forall a, only_TypeError (k a)) ->
  only_TypeError (obind o k).
Proof.
  intros Ho Hk e. destruct o as [a|e']; simpl.
  - apply Hk.
  - intros H. injection H as <-. now apply Ho.
Qed.

Lemma only_TypeError_Ok {A} (a : A) : only_TypeError (Ok a).
Proof. intros e H. discriminate. Qed.

Lemma only_TypeError_getProp v k : only_TypeError (getProp v k).
Proof. intros e. destruct v; simpl; congruence. Qed.

Lemma only_TypeError_filter_items severity l :
  only_TypeError (filter_items (hasType severity) l).
Proof.
  induction l as [|m l IH]; simpl; [apply only_TypeError_Ok|].
  apply only_TypeError_obind.
  - unfold hasType. apply only_TypeError_obind;
      [apply only_TypeError_getProp|intros; apply only_TypeError_Ok].
  - intros keep. apply only_TypeError_obind; [exact IH|].
    intros; apply only_TypeError_Ok.
Qed.

Lemma only_TypeError_Array_filter severity v :
  only_TypeError (Array_filter (hasType severity) v).
Proof.
  destruct v; simpl; try (intros e H; congruence).
  apply only_TypeError_filter_items.
Qed.

Lemma only_TypeError_classify v : only_TypeError (classify v).
Proof.
  unfold classify.
  repeat (apply only_TypeError_obind;
          [apply only_TypeError_Array_filter|intros ?]).
  apply only_TypeError_Ok.
Qed.

Lemma classify_refuses v :
  is_diagnostic_array v = false -> classify v = Throw TypeError.
Proof.
  intros H. destruct (classify v) as [b|e] eqn:E.
  - destruct v; try discriminate.
    apply classify_Ok_diagnostics in E. unfold diagnostics in E.
    simpl in H. congruence.
  - now rewrite (only_TypeError_classify v e E).
Qed.

(** What the reporter does with any decoded value: it refuses it before
    the first event, or it marks the run failed and then only annotates,
    to the end or up to an exception. *)
Lemma reportResults_shape v pylintArgs :
  (is_diagnostic_array v = false /\
   reportResults v pylintArgs = ([], Throw TypeError)) \/
  (exists l anns rest,
     v = JArr l /\ diagnostics l /\ annotations_only anns /\
     trace (reportResults v pylintArgs) =
     core_setFailed
       (Some (join (LF ++ LF) (summaryTitle pylintArgs :: summary_entries l)))
     :: anns /\
     emission_order l = (map Ok anns ++ rest)%list /\
     ((result (reportResults v pylintArgs) = Ok tt /\ rest = []) \/
      exists e, result (reportResults v pylintArgs) = Throw e)).
Proof.
  destruct (is_diagnostic_array v) eqn:D.
  - right. destruct v; try discriminate. simpl in D.
    destruct (reportResults_diagnostics items pylintArgs D)
      as (anns & rest & Ha & Ht & Hp & Hr).
    exists items, anns, rest. split; [reflexivity|].
    repeat (split; [assumption|]).
    destruct (result (reportResults (JArr items) pylintArgs)) as [[]|e].
    + left. auto.
    + right. now exists e.
  - left. split; [reflexivity|].
    apply reportResults_threw. now apply classify_refuses.
Qed.


(** ** What the reporter emits *)

Lemma Forall_trace_bind {A B} (P : event -> Prop) (m : M A) (k : A -> M B) :
  Forall P (trace m) -> (forall a, Forall P (trace (k a))) ->
  Forall P (trace (bind m k)).
Proof.
  intros Hm Hk.
  destruct (trace_bind m k) as (rest & -> & [->|(a & _ & ->)]);
    apply Forall_app; split; try exact Hm.
  - constructor.
  - apply Hk.
Qed.

Lemma forEach_annotate_Forall (P : event -> Prop) channel l :
  (forall m ev, In m l -> annotation channel m = Ok ev -> P ev) ->
  Forall P (trace (forEach (annotate channel) l)).
Proof.
  induction l as [|m l IH]; intros H; simpl; [constructor|].
  apply Forall_trace_bind.
  - rewrite annotate_annotation.
    destruct (annotation channel m) as [ev|e] eqn:E; [|constructor].
    constructor; [|constructor]. apply (H m ev); [now left|exact E].
  - intros _. apply IH. intros m' ev Hin. apply H. now right.
Qed.

Lemma loops_Forall (P : event -> Prop) b :
  (forall m ev, In m (pylintErrors b) ->
     annotation core_error m = Ok ev -> P ev) ->
  (forall m ev,
     In m (pylintWarnings b ++ pylintRefactor b ++ pylintConvention b) ->
     annotation core_warning m = Ok ev -> P ev) ->
  (forall m ev, In m (pylintInfo b) ->
     annotation core_notice m = Ok ev -> P ev) ->
  Forall P (trace (loops b)).
Proof.
  intros He Hw Hi. unfold loops.
  apply Forall_trace_bind; [now apply forEach_annotate_Forall|intros _].
  apply Forall_trace_bind; [now apply forEach_annotate_Forall|intros _].
  now apply forEach_annotate_Forall.
Qed.

Lemma annotationProperties_spans m p :
  annotationProperties m = Ok p ->
  startLine p = endLine p /\ startColumn p = endColumn p.
Proof.
  unfold annotationProperties. intros H.
  repeat match type of H with
         | obind ?o _ = Ok _ => destruct o; simpl in H; [|discriminate]
         end.
  injection H as <-. split; reflexivity.
Qed.

(** X2. Every annotation the reporter emits, on whatever decoded value,
    points at one position: its line span and its column span each start
    where they end. *)
Theorem reportResults_single_position (v : jsval)
    (pylintArgs : list ParseEntry) :
  Forall single_position (trace (reportResults v pylintArgs)).
Proof.
  destruct (classify v) as [b|e] eqn:E.
  2:{ rewrite (reportResults_threw _ _ _ E). constructor. }
  rewrite (reportResults_classified _ _ _ E). constructor; [exact I|].
  apply loops_Forall; intros m ev _ H; unfold annotation in H;
    destruct (annotationMessage m); simpl in H; try discriminate;
    destruct (annotationProperties m) as [p|] eqn:Ep; simpl in H;
    try discriminate; injection H as <-;
    exact (annotationProperties_spans _ _ Ep).
Qed.

Lemma classify_buckets l b :
  classify (JArr l) = Ok b ->
  b = {| pylintErrors := filter (typeIs "error") l;
         pylintWarnings := filter (typeIs "warning") l;
         pylintConvention := filter (typeIs "convention") l;
         pylintRefactor := filter (typeIs "refactor") l;
         pylintInfo := filter (typeIs "info") l |}.
Proof.
  intros E. pose proof (classify_Ok_diagnostics _ _ E) as D.
  rewrite (classify_diagnostics _ D) in E. now injection E as <-.
Qed.

Lemma routing (l : list jsval) (pylintArgs : list ParseEntry) :
  Forall (fun ev => is_annotation ev = true ->
                    exists m, In m l /\ routed m ev)
    (trace (reportResults (JArr l) pylintArgs)).
Proof.
  destruct (classify (JArr l)) as [b|e] eqn:E.
  2:{ rewrite (reportResults_threw _ _ _ E). constructor. }
  rewrite (reportResults_classified _ _ _ E).
  constructor; [discriminate|].
  rewrite (classify_buckets _ _ E).
  apply loops_Forall;
    cbn [pylintErrors pylintWarnings pylintConvention pylintRefactor pylintInfo];
    intros m ev Hin H _; exists m.
  - apply filter_In in Hin. split; [tauto|]. left. tauto.
  - assert (In m l /\
            (typeIs "warning" m || typeIs "refactor" m
             || typeIs "convention" m) = true) as [Hl Ht].
    { apply in_app_or in Hin. destruct Hin as [Hin|Hin];
        [|apply in_app_or in Hin; destruct Hin as [Hin|Hin]];
        apply filter_In in Hin; destruct Hin as [Hl Ht]; rewrite Ht;
        split; auto; now rewrite ?orb_true_r. }
    split; [exact Hl|]. right. left. tauto.
  - apply filter_In in Hin. split; [tauto|]. right. right. tauto.
Qed.

(** X3. An annotation the reporter emits is that of a diagnostic of the
    list, on the channel of its [type]: error for error, warning for
    warning, refactor and convention, notice for info. A diagnostic of
    another [type] is never annotated, and nothing is annotated that the
    list does not hold. *)
Theorem reportResults_routes (l : list jsval) (pylintArgs : list ParseEntry) :
  Forall (fun ev => is_annotation ev = true ->
                    exists m, In m l /\ routed m ev)
    (trace (reportResults (JArr l) pylintArgs)).
Proof. exact (routing l pylintArgs). Qed.

Lemma typeIs_getProp severity m :
  typeIs severity m = true -> getProp m "type" = Ok (JStr severity).
Proof.
  destruct m; simpl; try discriminate.
  destruct (own "type" fields); simpl; try discriminate.
  intros H. apply String.eqb_eq in H. now subst.
Qed.

Lemma annotation_title channel severity m ev :
  typeIs severity m = true ->
  annotation channel m = Ok ev ->
  exists text p rest,
    ev = channel text p /\ title p = "Linter " ++ severity ++ " " ++ rest.
Proof.
  intros Ht H. unfold annotation in H.
  destruct (annotationMessage m) as [text|]; simpl in H; [|discriminate].
  destruct (annotationProperties m) as [p|] eqn:Ep; simpl in H;
    [|discriminate].
  injection H as <-. exists text, p.
  unfold annotationProperties in Ep.
  rewrite (typeIs_getProp _ _ Ht) in Ep. cbn [obind ToString] in Ep.
  repeat match type of Ep with
         | obind ?o _ = Ok _ => destruct o; simpl in Ep; [|discriminate]
         end.
  injection Ep as <-. eexists. split; reflexivity.
Qed.

Lemma prefix_append (a b : string) : prefix a (a ++ b) = true.
Proof.
  induction a as [|x a IH]; simpl; [now destruct b|].
  destruct (ascii_dec x x); [exact IH|contradiction].
Qed.

Lemma routed_titled m ev : routed m ev -> titled ev = true.
Proof.
  intros [[Ht H]|[[Ht H]|[Ht H]]].
  - destruct (annotation_title _ _ _ _ Ht H) as (text & p & rest & -> & T).
    simpl. rewrite T. apply (prefix_append "Linter error ").
  - apply orb_true_iff in Ht. destruct Ht as [Ht|Ht];
      [apply orb_true_iff in Ht; destruct Ht as [Ht|Ht]|];
      destruct (annotation_title _ _ _ _ Ht H) as (text & p & rest & -> & T);
      simpl; rewrite T.
    + pose proof (prefix_append "Linter warning " rest) as P.
      cbn [append] in P |- *. now rewrite P.
    + pose proof (prefix_append "Linter refactor " rest) as P.
      cbn [append] in P |- *. rewrite P. now rewrite orb_true_r.
    + pose proof (prefix_append "Linter convention " rest) as P.
      cbn [append] in P |- *. rewrite P. now rewrite orb_true_r.
  - destruct (annotation_title _ _ _ _ Ht H) as (text & p & rest & -> & T).
    simpl. rewrite T. apply (prefix_append "Linter info ").
Qed.

(** X4. The title of every annotation names a severity of its channel:
    [Linter error ...] on the error channel, [Linter info ...] on the
    notice channel, and [Linter warning ...], [Linter refactor ...] or
    [Linter convention ...] on the warning channel. *)
Theorem reportResults_titles (l : list jsval) (pylintArgs : list ParseEntry) :
  Forall (fun ev => titled ev = true)
    (trace (reportResults (JArr l) pylintArgs)).
Proof.
  pose proof (routing l pylintArgs) as R.
  eapply Forall_impl; [|exact R]. intros ev H. cbv beta in H.
  destruct (is_annotation ev) eqn:A.
  - destruct (H eq_refl) as (m & _ & Hr). now apply (routed_titled m).
  - destruct ev; try discriminate; reflexivity.
Qed.

Lemma emission_order_length l :
  List.length (emission_order l) = List.length (filter recognized l).
Proof.
  unfold emission_order. rewrite <- bucket_sizes.
  rewrite !length_app, !length_map, !length_app. lia.
Qed.

(** X5. When the reporter completes, it has emitted as many annotations as
    the list holds diagnostics of the five types: one for each, none for a
    diagnostic of another [type]. *)
Theorem reportResults_annotation_count (l : list jsval)
    (pylintArgs : list ParseEntry) :
  result (reportResults (JArr l) pylintArgs) = Ok tt ->
  List.length (filter is_annotation
                 (trace (reportResults (JArr l) pylintArgs))) =
  List.length (filter recognized l).
Proof.
  intros H.
  destruct (reportResults_shape (JArr l) pylintArgs)
    as [[_ E]|(l' & anns & rest & Hv & _ & Ha & Ht & Hp & Hr)].
  { rewrite E in H. discriminate. }
  injection Hv as <-. rewrite Ht. cbn [filter is_annotation].
  rewrite (filter_annotations_only _ Ha).
  destruct Hr as [[_ ->]|(e & Hr)]; [|congruence].
  rewrite app_nil_r in Hp.
  now rewrite <- emission_order_length, Hp, length_map.
Qed.

Lemma reportResults_annotation_count_witness :
  result (reportResults (JArr sample_list) [Word "src"]) = Ok tt /\
  List.length (filter is_annotation
                 (trace (reportResults (JArr sample_list) [Word "src"]))) = 6.
Proof.
  split; [reflexivity|].
  apply (reportResults_annotation_count sample_list [Word "src"]).
  reflexivity.
Defined.

(** ** Diagnostics with scalar properties *)

Lemma own_scalar k fields :
  forallb (fun kv => scalar (snd kv)) fields = true ->
  scalar (own k fields) = true.
Proof.
  induction fields as [|[k' v] fields IH]; simpl; [reflexivity|].
  intros H. apply andb_true_iff in H. destruct H as [Hv Hf].
  destruct (String.eqb k' k); auto.
Qed.

Lemma plain_getProp m k :
  plain m = true -> exists v, getProp m k = Ok v /\ scalar v = true.
Proof.
  destruct m; simpl; try discriminate; intros H;
    try (exists JUndefined; split; reflexivity).
  eexists. split; [reflexivity|]. now apply own_scalar.
Qed.

Lemma ToString_scalar v : scalar v = true -> exists s, ToString v = Ok s.
Proof. destruct v; simpl; try discriminate; intros _; eauto. Qed.

Lemma plain_rendered m k :
  plain m = true -> exists s, obind (getProp m k) ToString = Ok s.
Proof.
  intros H. destruct (plain_getProp m k H) as (v & -> & Hv).
  now apply ToString_scalar.
Qed.

Lemma annotation_plain channel m :
  plain m = true -> exists ev, annotation channel m = Ok ev.
Proof.
  intros H. unfold annotation, annotationMessage, annotationProperties.
  destruct (plain_rendered m "message" H) as (text & ->).
  destruct (plain_getProp m "obj" H) as (obj & -> & Hobj).
  destruct (plain_rendered m "module" H) as (modname & ->).
  destruct (plain_rendered m "path" H) as (path & ->).
  destruct (plain_rendered m "line" H) as (line & ->).
  destruct (plain_rendered m "column" H) as (column & ->).
  destruct (plain_rendered m "type" H) as (ty & ->).
  destruct (plain_rendered m "message-id" H) as (id & ->).
  destruct (plain_rendered m "symbol" H) as (symbol & ->).
  destruct (plain_getProp m "path" H) as (vpath & -> & _).
  destruct (plain_getProp m "line" H) as (vline & -> & _).
  destruct (plain_getProp m "column" H) as (vcolumn & -> & _).
  destruct (ToString_scalar obj Hobj) as (sobj & Hs).
  cbn [obind]. rewrite Hs. destruct (ToBoolean obj); cbn [obind]; eauto.
Qed.

Lemma forEach_completes channel l :
  (forall m, In m l -> plain m = true) ->
  result (forEach (annotate channel) l) = Ok tt.
Proof.
  induction l as [|m l IH]; intros H; simpl; [reflexivity|].
  rewrite annotate_annotation.
  destruct (annotation_plain channel m (H m (or_introl eq_refl))) as (ev & ->).
  unfold bind, result in *. simpl. apply IH. intros m' Hin. apply H.
  now right.
Qed.

Lemma result_sequence (m k : M unit) :
  result m = Ok tt -> result k = Ok tt -> result (m ;; k) = Ok tt.
Proof. unfold bind, result. now intros ->. Qed.

Lemma plain_not_nullish m : plain m = true -> negb (nullish m) = true.
Proof. destruct m; simpl; auto. Qed.

Lemma plain_diagnostics l : forallb plain l = true -> diagnostics l.
Proof.
  unfold diagnostics. rewrite !forallb_forall. intros H m Hin.
  apply plain_not_nullish. now apply H.
Qed.

(** X6. On a list of plain diagnostics (none is [null], and no property
    of one is an array or an object; a property may be missing) the
    reporter completes: no rendering of a property throws. *)
Theorem reportResults_completes (l : list jsval)
    (pylintArgs : list ParseEntry) :
  forallb plain l = true ->
  result (reportResults (JArr l) pylintArgs) = Ok tt.
Proof.
  intros H. pose proof (plain_diagnostics l H) as D.
  rewrite (reportResults_classified _ _ _ (classify_diagnostics _ D)).
  cbn [result snd]. rewrite forallb_forall in H.
  unfold loops.
  cbn [pylintErrors pylintWarnings pylintConvention pylintRefactor pylintInfo].
  repeat apply result_sequence; apply forEach_completes; intros m Hin;
    repeat (apply in_app_or in Hin; destruct Hin as [Hin|Hin]);
    apply filter_In in Hin; apply H; tauto.
Qed.

Lemma reportResults_completes_witness :
  forallb plain sample_list = true /\
  result (reportResults (JArr sample_list) [Word "src"]) = Ok tt.
Proof.
  split; [reflexivity|].
  apply (reportResults_completes sample_list [Word "src"]). reflexivity.
Defined.

(** ** Every path of the run *)

Lemma filter_none (p : jsval -> bool) l :
  (forall m, In m l -> p m = false) -> filter p l = [].
Proof.
  induction l as [|m l IH]; intros H; simpl; [reflexivity|].
  rewrite (H m (or_introl eq_refl)). apply IH. intros m' Hin. apply H.
  now right.
Qed.

Lemma unrecognized_typeIs severity m :
  In severity severities -> recognized m = false ->
  typeIs severity m = false.
Proof.
  intros Hs Hr. destruct (typeIs severity m) eqn:T; [|reflexivity].
  unfold recognized in Hr.
  assert (existsb (fun s => typeIs s m) severities = true)
    by (apply existsb_exists; eauto).
  congruence.
Qed.

Section Paths.

Variable getInput : string -> string.
Variable shellParse : string -> outcome (list ParseEntry).
Variable exec : string -> list ParseEntry -> ExecResult.
Variable JSON_parse : string -> outcome jsval.

(** The three ways the handler ends: the usage error; a buffer or a
    decoded value it cannot report; a diagnostic list, reported to the end
    or up to an exception, which is then logged. *)
Lemma onRejected_shape out pylintArgs message :
  onRejected JSON_parse out pylintArgs message =
  ([console_error (ProcessError message); core_setFailed None], Ok tt) \/
  (exists e,
     onRejected JSON_parse out pylintArgs message =
     ([console_error (ProcessError message); console_error e], Ok tt)) \/
  (exists l anns logs,
     JSON_parse out = Ok (JArr l) /\ diagnostics l /\
     annotations_only anns /\
     (logs = [] \/
      exists e,
        logs = [console_error (ProcessError message); console_error e])
     /\
     onRejected JSON_parse out pylintArgs message =
     (core_setFailed
        (Some (join (LF ++ LF)
                 (summaryTitle pylintArgs :: summary_entries l)))
      :: anns ++ logs, Ok tt)).
Proof.
  destruct (0 <? indexOf message "exit code 32")%Z eqn:U.
  { left. now apply onRejected_usage. }
  right. destruct (JSON_parse out) as [v|e] eqn:E.
  2:{ left. exists e. now apply onRejected_undecodable. }
  rewrite (onRejected_decoded _ _ _ _ _ U E).
  destruct (reportResults_shape v pylintArgs)
    as [[_ R]|(l & anns & rest & -> & D & Ha & Ht & _ & Hr)].
  { left. exists TypeError. now rewrite R. }
  right. exists l, anns. unfold try_catch, trace, result in *.
  destruct (reportResults (JArr l) pylintArgs) as [t r]. simpl in *. subst t.
  destruct Hr as [[-> _]|(e & ->)].
  - exists []. rewrite app_nil_r. repeat split; auto.
  - exists [console_error (ProcessError message); console_error e].
    repeat split; eauto.
Qed.

(** X7. The run ends with an exception only when the tokenizer throws:
    then nothing has happened, the subprocess included. Once the input is
    split, the subprocess is started first and the run ends normally,
    whatever the subprocess, the decoder and the reporter do: the handler
    catches every exception. *)
Theorem run_outcome :
  match shellParse (getInput "pylint-args") with
  | Ok parsed =>
      result (run getInput shellParse exec JSON_parse) = Ok tt /\
      exists rest,
        trace (run getInput shellParse exec JSON_parse) =
        exec_exec "pylint" (parsed ++ [Word "--output-format=json"]) :: rest
  | Throw e => run getInput shellParse exec JSON_parse = ([], Throw e)
  end.
Proof.
  unfold run. destruct (shellParse (getInput "pylint-args")) as [parsed|e];
    [|reflexivity].
  rewrite bind_lift_Ok, bind_emit. unfold result, trace. cbn [fst snd].
  split; [|eexists; reflexivity].
  destruct (rejection _) as [message|]; [|reflexivity].
  destruct (onRejected_shape
              (pylintOutput
                 (exec "pylint" (parsed ++ [Word "--output-format=json"])))
              (parsed ++ [Word "--output-format=json"]) message)
    as [->|[(e & ->)|(l & anns & logs & _ & _ & _ & _ & ->)]]; reflexivity.
Qed.

(** X8. No run marks itself failed twice: [core.setFailed] is called at
    most once, whatever the input, the subprocess and the decoder. *)
Theorem run_setFailed_at_most_once :
  List.length
    (filter is_setFailed (trace (run getInput shellParse exec JSON_parse)))
  <= 1.
Proof.
  unfold run. destruct (shellParse (getInput "pylint-args")) as [parsed|e];
    [|simpl; lia].
  rewrite bind_lift_Ok, bind_emit. unfold trace. cbn [fst filter is_setFailed].
  destruct (rejection _) as [message|]; [|simpl; lia].
  destruct (onRejected_shape
              (pylintOutput
                 (exec "pylint" (parsed ++ [Word "--output-format=json"])))
              (parsed ++ [Word "--output-format=json"]) message)
    as [->|[(e & ->)|(l & anns & logs & _ & _ & Ha & Hl & ->)]];
    cbn [fst filter is_setFailed List.length]; try lia.
  rewrite filter_app, (annotations_only_no_setFailed _ Ha).
  destruct Hl as [->|(e' & ->)]; simpl; lia.
Qed.

(** X9. A run that annotates has been marked failed first: either no
    annotation is emitted, or the subprocess call is directly followed by
    [core.setFailed] with a message. In particular the usage-error path
    and the exit code 0 annotate nothing. *)
Theorem run_annotations_follow_failure :
  filter is_annotation (trace (run getInput shellParse exec JSON_parse)) = []
  \/
  exists parsed summary rest,
    trace (run getInput shellParse exec JSON_parse) =
    exec_exec "pylint" (parsed ++ [Word "--output-format=json"]) ::
    core_setFailed (Some summary) :: rest.
Proof.
  unfold run. destruct (shellParse (getInput "pylint-args")) as [parsed|e];
    [|now left].
  rewrite bind_lift_Ok, bind_emit. unfold trace. cbn [fst].
  destruct (rejection _) as [message|]; [|now left].
  destruct (onRejected_shape
              (pylintOutput
                 (exec "pylint" (parsed ++ [Word "--output-format=json"])))
              (parsed ++ [Word "--output-format=json"]) message)
    as [->|[(e & ->)|(l & anns & logs & _ & _ & _ & _ & ->)]];
    [now left|now left|].
  right. cbn [fst]. eexists. eexists. eexists. reflexivity.
Qed.

(** X10. When the buffer decodes to something that is not an array of
    non-null elements (an object, a number, [null], an array holding
    [null]), the reporter refuses it with a [TypeError] before it marks
    the run failed: the two errors are logged and the run ends unmarked,
    as on a buffer that does not decode. *)
Theorem run_refused_value_not_failed (parsed : list ParseEntry)
    (out message : string) (v : jsval) :
  rejected_with getInput shellParse exec parsed out message ->
  (0 <? indexOf message "exit code 32")%Z = false ->
  JSON_parse out = Ok v ->
  is_diagnostic_array v = false ->
  run getInput shellParse exec JSON_parse =
  ([exec_exec "pylint" (parsed ++ [Word "--output-format=json"]);
    console_error (ProcessError message);
    console_error TypeError],
   Ok tt).
Proof.
  intros Hr U E D. rewrite (run_rejected _ _ _ _ _ _ _ Hr).
  rewrite (onRejected_decoded _ _ _ _ _ U E).
  destruct (reportResults_shape v (parsed ++ [Word "--output-format=json"]))
    as [[_ ->]|(l & anns & rest & -> & D' & _)]; [reflexivity|].
  simpl in D. unfold diagnostics in D'. congruence.
Qed.

(** X11. When no diagnostic of the list has one of the five types, the run
    is marked failed with the title line alone and nothing is annotated,
    as on the empty list. *)
Theorem run_unrecognized_only (parsed : list ParseEntry)
    (out message : string) (l : list jsval) :
  rejected_with getInput shellParse exec parsed out message ->
  (0 <? indexOf message "exit code 32")%Z = false ->
  JSON_parse out = Ok (JArr l) ->
  diagnostics l ->
  forallb (fun m => negb (recognized m)) l = true ->
  run getInput shellParse exec JSON_parse =
  ([exec_exec "pylint" (parsed ++ [Word "--output-format=json"]);
    core_setFailed
      (Some (summaryTitle (parsed ++ [Word "--output-format=json"])))],
   Ok tt).
Proof.
  intros Hr U E D N. rewrite (run_rejected _ _ _ _ _ _ _ Hr).
  rewrite (onRejected_decoded _ _ _ _ _ U E).
  rewrite (reportResults_classified _ _ _ (classify_diagnostics _ D)).
  rewrite forallb_forall in N.
  assert (F : forall severity, In severity severities ->
                filter (typeIs severity) l = []).
  { intros s Hs. apply filter_none. intros m Hin.
    apply (unrecognized_typeIs _ _ Hs). apply negb_true_iff. now apply N. }
  rewrite !F by (simpl; tauto). reflexivity.
Qed.

(** X12. When the subprocess ends with code 0 the run does nothing after
    the call: the buffer is not decoded, so diagnostics written with a
    zero exit code are neither summarised nor annotated, and the run is
    not marked failed. *)
Theorem run_exit_code_0 (parsed : list ParseEntry) :
  shellParse (getInput "pylint-args") = Ok parsed ->
  rejection (exec "pylint" (parsed ++ [Word "--output-format=json"])) = None ->
  run getInput shellParse exec JSON_parse =
  ([exec_exec "pylint" (parsed ++ [Word "--output-format=json"])], Ok tt).
Proof.
  intros Hp Hx. unfold run. rewrite Hp, bind_lift_Ok, bind_emit, Hx.
  reflexivity.
Qed.

End Paths.

Lemma run_refused_value_not_failed_witness :
  is_diagnostic_array (JObj []) = false /\
  run (sample_getInput "src") sample_shellParse
    (sample_exec "{}" (Some (exitCodeMessage "/usr/bin/pylint" 1)))
    (sample_JSON_parse [JObj []]) =
  ([exec_exec "pylint" [Word "src"; Word "--output-format=json"];
    console_error (ProcessError (exitCodeMessage "/usr/bin/pylint" 1));
    console_error TypeError],
   Ok tt).
Proof.
  split; [reflexivity|].
  apply (run_refused_value_not_failed (sample_getInput "src")
           sample_shellParse
           (sample_exec "{}" (Some (exitCodeMessage "/usr/bin/pylint" 1)))
           (sample_JSON_parse [JObj []])
           [Word "src"] "{}" (exitCodeMessage "/usr/bin/pylint" 1) (JObj [])).
  - split; reflexivity.
  - reflexivity.
  - reflexivity.
  - reflexivity.
Defined.

Lemma run_unrecognized_only_witness :
  forallb (fun m => negb (recognized m)) [sample_fatal] = true /\
  run (sample_getInput "src") sample_shellParse
    (sample_exec (json_text (JArr [sample_fatal]))
       (Some (exitCodeMessage "/usr/bin/pylint" 1)))
    (sample_JSON_parse [JArr [sample_fatal]]) =
  ([exec_exec "pylint" [Word "src"; Word "--output-format=json"];
    core_setFailed
      (Some "Pylint linter issues detected: (options 'src,--output-format=json')")],
   Ok tt).
Proof.
  split; [reflexivity|].
  apply (run_unrecognized_only (sample_getInput "src") sample_shellParse
           (sample_exec (json_text (JArr [sample_fatal]))
              (Some (exitCodeMessage "/usr/bin/pylint" 1)))
           (sample_JSON_parse [JArr [sample_fatal]])
           [Word "src"] (json_text (JArr [sample_fatal]))
           (exitCodeMessage "/usr/bin/pylint" 1) [sample_fatal]).
  - split; reflexivity.
  - reflexivity.
  - reflexivity.
  - reflexivity.
  - reflexivity.
Defined.

Lemma run_exit_code_0_witness :
  rejection (sample_exec sample_output None "pylint"
               [Word "src"; Word "--output-format=json"]) = None /\
  run (sample_getInput "src") sample_shellParse
    (sample_exec sample_output None)
    (sample_JSON_parse [JArr sample_list]) =
  ([exec_exec "pylint" [Word "src"; Word "--output-format=json"]], Ok tt).
Proof.
  split; [reflexivity|].
  apply (run_exit_code_0 (sample_getInput "src") sample_shellParse
           (sample_exec sample_output None)
           (sample_JSON_parse [JArr sample_list]) [Word "src"]);
    reflexivity.
Defined.

(** ** The order of the diagnostics *)

Lemma Permutation_filter_length (p : jsval -> bool) l l' :
  Permutation l l' ->
  List.length (filter p l) = List.length (filter p l').
Proof.
  induction 1 as [|x l l' _ IH|x y l|l l' l'' _ IH1 _ IH2]; simpl.
  - reflexivity.
  - destruct (p x); simpl; now rewrite IH.
  - destruct (p x), (p y); reflexivity.
  - now rewrite IH1.
Qed.

Lemma Permutation_forallb (p : jsval -> bool) l l' :
  Permutation l l' -> forallb p l = forallb p l'.
Proof.
  induction 1 as [|x l l' _ IH|x y l|l l' l'' _ IH1 _ IH2]; simpl.
  - reflexivity.
  - now rewrite IH.
  - destruct (p x), (p y); reflexivity.
  - now rewrite IH1.
Qed.

Lemma Permutation_summary_entries l l' :
  Permutation l l' -> summary_entries l = summary_entries l'.
Proof.
  intros H. unfold summary_entries, severities. cbn [flat_map].
  now rewrite !(Permutation_filter_length _ _ _ H).
Qed.

(** X13. The failure message counts and does not order: the reporter marks
    the run failed with the same message for a list and for any
    rearrangement of it (and refuses both or neither). *)
Theorem reportResults_failure_order_free (l l' : list jsval)
    (pylintArgs : list ParseEntry) :
  Permutation l l' ->
  filter is_setFailed (trace (reportResults (JArr l) pylintArgs)) =
  filter is_setFailed (trace (reportResults (JArr l') pylintArgs)).
Proof.
  intros P.
  pose proof (Permutation_forallb (fun m => negb (nullish m)) _ _ P) as D.
  destruct (reportResults_shape (JArr l) pylintArgs)
    as [[N R]|(k & anns & rest & Hk & _ & Ha & Ht & _)];
    destruct (reportResults_shape (JArr l') pylintArgs)
      as [[N' R']|(k' & anns' & rest' & Hk' & Hd' & Ha' & Ht' & _)].
  - now rewrite R, R'.
  - injection Hk' as <-. simpl in N. unfold diagnostics in Hd'. congruence.
  - injection Hk as <-. simpl in N'.
    pose proof (classify_Ok_diagnostics l) as C.
    destruct (forallb (fun m => negb (nullish m)) l) eqn:F; [congruence|].
    unfold trace in Ht.
    rewrite (reportResults_threw (JArr l) TypeError) in Ht;
      [discriminate|now apply classify_refuses].
  - injection Hk as <-. injection Hk' as <-. rewrite Ht, Ht'.
    cbn [filter is_setFailed].
    rewrite (annotations_only_no_setFailed _ Ha),
      (annotations_only_no_setFailed _ Ha').
    now rewrite (Permutation_summary_entries _ _ P).
Qed.

Lemma reportResults_failure_order_free_witness :
  filter is_setFailed
    (trace (reportResults (JArr [sample_error; sample_info]) [Word "src"])) =
  filter is_setFailed
    (trace (reportResults (JArr [sample_info; sample_error]) [Word "src"])).
Proof.
  apply (reportResults_failure_order_free [sample_error; sample_info]
           [sample_info; sample_error] [Word "src"]).
  apply perm_swap.
Defined.

(** ** The usage-error test, exactly *)

Lemma substring_occurrence (n : nat) (p s : string) :
  substring n (String.length p) s = p -> exists a b, s = a ++ p ++ b.
Proof.
  revert s. induction n as [|n IH]; intros s H.
  - exists "". revert s H. induction p as [|c p IHp]; intros s H.
    + now exists s.
    + destruct s as [|c' s]; simpl in H; [discriminate|].
      injection H as -> H. destruct (IHp s H) as (b & ->). now exists b.
  - destruct s as [|c s].
    + destruct p; simpl in H; [|discriminate]. now exists "", "".
    + simpl in H. destruct (IH s H) as (a & b & ->).
      now exists (String c a), b.
Qed.

Lemma exit_code_32_test (message : string) :
  (0 <? indexOf message "exit code 32")%Z = true <->
  (exists a b, message = a ++ "exit code 32" ++ b) /\
  prefix "exit code 32" message = false.
Proof.
  unfold indexOf. split.
  - destruct (index 0 "exit code 32" message) as [i|] eqn:I;
      [|discriminate].
    destruct i as [|i]; [discriminate|]. intros _. split.
    + apply index_correct1 in I. now apply (substring_occurrence (S i)).
    + destruct (prefix "exit code 32" message) eqn:P; [|reflexivity].
      apply prefix_correct in P.
      exfalso. apply (index_correct2 _ _ _ _ I 0); [lia|lia|exact P].
  - intros [(a & b & ->) P].
    destruct (index 0 "exit code 32" (a ++ "exit code 32" ++ b)) as [i|] eqn:I.
    + destruct i as [|i]; [|reflexivity].
      apply index_correct1 in I. apply prefix_correct in I. congruence.
    + exfalso.
      apply (index_correct3 0 (String.length a)) in I; [|discriminate|lia].
      apply I. rewrite substring_skip. simpl. now destruct b.
Qed.

Section UsageTest.

Variable getInput : string -> string.
Variable shellParse : string -> outcome (list ParseEntry).
Variable exec : string -> list ParseEntry -> ExecResult.
Variable JSON_parse : string -> outcome jsval.

Lemma onRejected_not_usage out pylintArgs message :
  (0 <? indexOf message "exit code 32")%Z = false ->
  onRejected JSON_parse out pylintArgs message <>
  ([console_error (ProcessError message); core_setFailed None], Ok tt).
Proof.
  intros U H. destruct (JSON_parse out) as [v|e] eqn:E.
  2:{ rewrite (onRejected_undecodable _ _ _ _ _ U E) in H. discriminate. }
  rewrite (onRejected_decoded _ _ _ _ _ U E) in H.
  destruct (reportResults_shape v pylintArgs)
    as [[_ R]|(l & anns & rest & _ & _ & _ & Ht & _)].
  - rewrite R in H. discriminate.
  - unfold try_catch, trace in *.
    destruct (reportResults v pylintArgs) as [t r]. simpl in *. subst t.
    destruct r; discriminate.
Qed.

(** X14. When the subprocess fails, the run takes the usage-error path
    (the error logged, [core.setFailed] called without a message, nothing
    decoded or reported) exactly when the message of the error holds the
    text [exit code 32] somewhere but does not begin with it: the test
    asks for a position greater than 0. *)
Theorem run_usage_error_test (parsed : list ParseEntry)
    (out message : string) :
  rejected_with getInput shellParse exec parsed out message ->
  run getInput shellParse exec JSON_parse =
  ([exec_exec "pylint" (parsed ++ [Word "--output-format=json"]);
    console_error (ProcessError message);
    core_setFailed None],
   Ok tt)
  <->
  (exists a b, message = a ++ "exit code 32" ++ b) /\
  prefix "exit code 32" message = false.
Proof.
  intros Hr. rewrite (run_rejected _ _ _ _ _ _ _ Hr).
  rewrite <- exit_code_32_test.
  destruct (0 <? indexOf message "exit code 32")%Z eqn:U.
  - rewrite (onRejected_usage _ _ _ _ U). split; reflexivity.
  - split; [|discriminate]. intros H. exfalso.
    apply (onRejected_not_usage out
             (parsed ++ [Word "--output-format=json"]) message U).
    unfold trace, result in H.
    destruct (onRejected JSON_parse out
                (parsed ++ [Word "--output-format=json"]) message) as [t r].
    simpl in H. now injection H as -> ->.
Qed.

End UsageTest.

Lemma run_usage_error_test_witness :
  run (sample_getInput "src") sample_shellParse
    (sample_exec sample_output (Some "exit code 32"))
    (sample_JSON_parse [JArr sample_list]) <>
  ([exec_exec "pylint" [Word "src"; Word "--output-format=json"];
    console_error (ProcessError "exit code 32");
    core_setFailed None],
   Ok tt) /\
  prefix "exit code 32" "exit code 32" = true.
Proof.
  split; [|reflexivity]. intros H.
  apply (run_usage_error_test (sample_getInput "src") sample_shellParse
           (sample_exec sample_output (Some "exit code 32"))
           (sample_JSON_parse [JArr sample_list])
           [Word "src"] sample_output "exit code 32") in H;
    [|split; reflexivity].
  destruct H as [_ H]. discriminate.
Defined.

(** ** A reporter stopped on its way *)

Lemma forEach_annotate_interrupted channel l e :
  result (forEach (annotate channel) l) = Throw e ->
  exists rest,
    map (annotation channel) l =
    (map Ok (trace (forEach (annotate channel) l)) ++ Throw e :: rest)%list.
Proof.
  induction l as [|m l IH]; simpl; [discriminate|].
  rewrite annotate_annotation.
  destruct (annotation channel m) as [ev|e'] eqn:E.
  - unfold bind, trace, result in *; simpl. intros H.
    destruct (IH H) as (rest & ->). now exists rest.
  - unfold result. simpl. intros H. injection H as ->.
    now exists (map (annotation channel) l).
Qed.

Lemma sequence_interrupted (m k : M unit) (L1 L2 : list (outcome event)) e :
  (exists r1, L1 = (map Ok (trace m) ++ r1)%list /\
              (result m = Ok tt -> r1 = [])) ->
  (result m = Throw e ->
   exists r1, L1 = (map Ok (trace m) ++ Throw e :: r1)%list) ->
  (result k = Throw e ->
   exists r2, L2 = (map Ok (trace k) ++ Throw e :: r2)%list) ->
  result (m ;; k) = Throw e ->
  exists r, (L1 ++ L2)%list = (map Ok (trace (m ;; k)) ++ Throw e :: r)%list.
Proof.
  intros (r0 & H0 & Hok) H1 H2. unfold bind, trace, result in *.
  destruct m as [t1 [[]|e1]]; simpl in *; intros H.
  - destruct (H2 H) as (r2 & ->). rewrite H0, (Hok eq_refl), app_nil_r.
    exists r2. now rewrite map_app, <- app_assoc.
  - destruct (H1 H) as (r1 & ->). exists (r1 ++ L2)%list.
    now rewrite <- app_assoc.
Qed.

Lemma loops_interrupted b e :
  result (loops b) = Throw e ->
  exists rest,
    (map (annotation core_error) (pylintErrors b) ++
     map (annotation core_warning)
       (pylintWarnings b ++ pylintRefactor b ++ pylintConvention b) ++
     map (annotation core_notice) (pylintInfo b))%list =
    (map Ok (trace (loops b)) ++ Throw e :: rest)%list.
Proof.
  unfold loops.
  apply sequence_interrupted;
    [apply forEach_annotate_prefix|apply forEach_annotate_interrupted|].
  apply sequence_interrupted;
    [apply forEach_annotate_prefix|apply forEach_annotate_interrupted|].
  apply forEach_annotate_interrupted.
Qed.

Section Interrupted.

Variable getInput : string -> string.
Variable shellParse : string -> outcome (list ParseEntry).
Variable exec : string -> list ParseEntry -> ExecResult.
Variable JSON_parse : string -> outcome jsval.

(** X15. When the annotation of a diagnostic cannot be built (a property
    that does not render), the reporter stops there: the run is already
    marked failed with the full summary, the annotations emitted are
    exactly those that come before that diagnostic in the emission order,
    the later ones are lost, and the subprocess error and the [TypeError]
    are logged. *)
Theorem run_reporter_interrupted (parsed : list ParseEntry)
    (out message : string) (l : list jsval) :
  rejected_with getInput shellParse exec parsed out message ->
  (0 <? indexOf message "exit code 32")%Z = false ->
  JSON_parse out = Ok (JArr l) ->
  diagnostics l ->
  result (reportResults (JArr l) (parsed ++ [Word "--output-format=json"])) =
  Throw TypeError ->
  exists anns rest,
    emission_order l = (map Ok anns ++ Throw TypeError :: rest)%list /\
    run getInput shellParse exec JSON_parse =
    (exec_exec "pylint" (parsed ++ [Word "--output-format=json"]) ::
     core_setFailed
       (Some (join (LF ++ LF)
                (summaryTitle (parsed ++ [Word "--output-format=json"])
                 :: summary_entries l)))
     :: anns ++
     [console_error (ProcessError message); console_error TypeError],
     Ok tt).
Proof.
  intros Hr U E D T. rewrite (run_rejected _ _ _ _ _ _ _ Hr).
  rewrite (onRejected_decoded _ _ _ _ _ U E).
  rewrite (reportResults_classified _ _ _ (classify_diagnostics _ D)) in *.
  rewrite summary_diagnostics. cbn [result snd] in T.
  destruct (loops_interrupted _ _ T) as (rest & Hp).
  exists (trace (loops
                   {| pylintErrors := filter (typeIs "error") l;
                      pylintWarnings := filter (typeIs "warning") l;
                      pylintConvention := filter (typeIs "convention") l;
                      pylintRefactor := filter (typeIs "refactor") l;
                      pylintInfo := filter (typeIs "info") l |})), rest.
  split; [exact Hp|].
  unfold try_catch, trace, result in *. cbn [fst snd]. rewrite T.
  reflexivity.
Qed.

End Interrupted.

Lemma run_reporter_interrupted_witness :
  result (reportResults
            (JArr [sample_error; sample_unrenderable; sample_info])
            [Word "src"; Word "--output-format=json"]) = Throw TypeError /\
  exists anns rest,
    emission_order [sample_error; sample_unrenderable; sample_info] =
    (map Ok anns ++ Throw TypeError :: rest)%list /\
    run (sample_getInput "src") sample_shellParse
      (sample_exec
         (json_text (JArr [sample_error; sample_unrenderable; sample_info]))
         (Some (exitCodeMessage "/usr/bin/pylint" 6)))
      (sample_JSON_parse
         [JArr [sample_error; sample_unrenderable; sample_info]]) =
    (exec_exec "pylint" [Word "src"; Word "--output-format=json"] ::
     core_setFailed
       (Some (join (LF ++ LF)
                (summaryTitle [Word "src"; Word "--output-format=json"]
                 :: summary_entries
                      [sample_error; sample_unrenderable; sample_info])))
     :: anns ++
     [console_error (ProcessError (exitCodeMessage "/usr/bin/pylint" 6));
      console_error TypeError],
     Ok tt).
Proof.
  split; [reflexivity|].
  apply (run_reporter_interrupted (sample_getInput "src") sample_shellParse
           (sample_exec
              (json_text
                 (JArr [sample_error; sample_unrenderable; sample_info]))
              (Some (exitCodeMessage "/usr/bin/pylint" 6)))
           (sample_JSON_parse
              [JArr [sample_error; sample_unrenderable; sample_info]])
           [Word "src"]
           (json_text (JArr [sample_error; sample_unrenderable; sample_info]))
           (exitCodeMessage "/usr/bin/pylint" 6)
           [sample_error; sample_unrenderable; sample_info]).
  - split; reflexivity.
  - reflexivity.
  - reflexivity.
  - reflexivity.
  - reflexivity.
Defined.
